(** * Sympathetic String Reverb (src/sympathetic.c): model and properties

    The plugin keeps up to eleven tuned feedback comb filters.  This file
    embeds the C code function by function:

    - [float] values are IEEE 754 binary32, computed with the executable
      specification of the Standard Library ([SpecFloat], precision 24,
      maximal exponent 128, round to nearest even);
    - a C [int] is a [Z]; an array or a malloc'ed buffer is a [list], read
      with [!!] and written with [<[_:=_]>];
    - a function whose C execution can be undefined (a read or write outside
      a buffer, a NULL buffer, a float that does not fit the [int] it is
      converted to) returns [option]: [None] is undefined behaviour;
    - [malloc] succeeds or fails as an oracle says, call by call. *)

From Stdlib Require Import ZArith List Lia Bool String.
From Stdlib Require Import Floats.SpecFloat.
From stdpp Require Import base option list.

Open Scope Z_scope.

(** ** binary32 arithmetic *)

Module F32.

Definition prec : Z := 24.
Definition emax : Z := 128.

Definition float : Type := spec_float.

Definition add : float -> float -> float := SFadd prec emax.
Definition sub : float -> float -> float := SFsub prec emax.
Definition mul : float -> float -> float := SFmul prec emax.
Definition div : float -> float -> float := SFdiv prec emax.

(** C's [==], [<] and [<=]: all three are false when an operand is NaN. *)
Definition eqb : float -> float -> bool := SFeqb.
Definition ltb : float -> float -> bool := SFltb.
Definition leb : float -> float -> bool := SFleb.

(** Conversion of an integer to [float] (round to nearest even). *)
Definition of_Z (z : Z) : float := binary_normalize prec emax z 0 false.

Definition zero : float := S754_zero false.
Definition one : float := of_Z 1.

(** The decimal literal [n/d] written with an [f] suffix: the binary32
    number nearest to the quotient. *)
Definition literal (n d : Z) : float := div (of_Z n) (of_Z d).

Definition INT_MIN : Z := -2147483648.
Definition INT_MAX : Z := 2147483647.

(** Conversion of a [float] to [int]: the fractional part is discarded;
    the behaviour is undefined when the result does not fit. *)
Definition to_int (x : float) : option Z :=
  match x with
  | S754_zero _ => Some 0
  | S754_finite s m e =>
      let z := cond_Zopp s (Z.shiftl (Z.pos m) e) in
      if (INT_MIN <=? z) && (z <=? INT_MAX) then Some z else None
  | S754_infinity _ | S754_nan => None
  end.

Definition is_nan (x : float) : bool :=
  match x with S754_nan => true | _ => false end.

End F32.

Abbreviation float := F32.float.

(** ** Constants *)

Definition COMB_COUNT : nat := 11.

Definition FEEDBACK_OFFSET : float := F32.literal 96 100.
Definition FEEDBACK_RANGE : float := F32.literal 39 1000.
Definition DAMPING_RANGE : float := F32.literal 1 2.

(** ** Data *)

(** [struct comb].  [buffer = None] is the NULL pointer. *)
Record comb : Type := mk_comb {
  store : float;
  buffer : option (list float);
  size : Z;
  idx : Z
}.

(** [struct symp], without the port pointers (see [ports]).  The array
    [combs] is kept as the list of its first [num_combs] entries. *)
Record symp : Type := mk_symp {
  run_adding_gain : float;
  combs : list comb;
  damping : float;
  damp1 : float;
  damp2 : float;
  feedback : float;
  scaled_feedback : float;
  sample_rate : Z
}.

Definition num_combs (s : symp) : nat := length (combs s).

(** The host memory the port pointers of [struct symp] refer to, once
    [symp_connect_port] has bound them: eleven tuning controls, five scalar
    controls, and the three audio buffers (taken to be disjoint). *)
Record ports : Type := mk_ports {
  ctrl_tunings : list float;
  ctrl_feedback : float;
  ctrl_damping : float;
  ctrl_gain_input : float;
  ctrl_wet_left : float;
  ctrl_wet_right : float;
  audio_input : list float;
  audio_output1 : list float;
  audio_output2 : list float
}.

(** The [n]-th call of [malloc] returns a block iff the oracle says [true]. *)
Definition malloc_oracle : Type := nat -> bool.

Definition set_combs (s : symp) (cs : list comb) : symp :=
  mk_symp (run_adding_gain s) cs (damping s) (damp1 s) (damp2 s)
          (feedback s) (scaled_feedback s) (sample_rate s).

Definition set_sample_rate (s : symp) (rate : Z) : symp :=
  mk_symp (run_adding_gain s) (combs s) (damping s) (damp1 s) (damp2 s)
          (feedback s) (scaled_feedback s) rate.

Definition set_damp2 (s : symp) (d : float) : symp :=
  mk_symp (run_adding_gain s) (combs s) (damping s) (damp1 s) d
          (feedback s) (scaled_feedback s) (sample_rate s).

Definition set_outputs (p : ports) (o1 o2 : list float) : ports :=
  mk_ports (ctrl_tunings p) (ctrl_feedback p) (ctrl_damping p)
           (ctrl_gain_input p) (ctrl_wet_left p) (ctrl_wet_right p)
           (audio_input p) o1 o2.

(** ** symp_setup_combs *)

(** A comb right after [malloc] and [memset(comb, 0, ...)]. *)
Definition zeroed_comb : comb := mk_comb F32.zero None 0 0.

(** The same comb once its zero-filled buffer is attached. *)
Definition new_comb (sz : Z) : comb :=
  mk_comb F32.zero (Some (replicate (Z.to_nat sz) F32.zero)) sz 0.

(** [size = symp->sample_rate / *symp->ctrl_tunings[i]]: the sample rate is
    converted to [float], the division is a [float] division and its result
    is converted to [int]. *)
Definition comb_size (rate : Z) (tuning : float) : option Z :=
  F32.to_int (F32.div (F32.of_Z rate) tuning).

(** The loop of [symp_setup_combs] over the port indices [ixs]; [n] counts
    the calls of [malloc] made so far.  The result is the returned [int]
    and the state left behind. *)
Fixpoint setup_combs_loop (o : malloc_oracle) (p : ports) (ixs : list nat)
    (n : nat) (s : symp) : option (Z * symp) :=
  match ixs with
  | [] => Some (1, s)
  | i :: ixs' =>
      t ← ctrl_tunings p !! i;
      if F32.leb t F32.zero then setup_combs_loop o p ixs' n s
      else
        sz ← comb_size (sample_rate s) t;
        if negb (o n) then Some (-1, s)
        else if decide (num_combs s < COMB_COUNT)%nat then
          let s1 := set_combs s (combs s ++ [zeroed_comb]) in
          if negb (o (S n)) then Some (-1, s1)
          else
            setup_combs_loop o p ixs' (S (S n))
              (set_combs s (combs s ++ [new_comb sz]))
        else None
  end.

Definition symp_setup_combs (o : malloc_oracle) (p : ports) (s : symp)
    : option (Z * symp) :=
  setup_combs_loop o p (seq 0 COMB_COUNT) 0 s.

(** ** symp_cleanup_combs, symp_instantiate, symp_activate, symp_deactivate *)

Definition symp_cleanup_combs (s : symp) : symp := set_combs s [].

(** [None] is the NULL handle returned when [malloc] fails; [s0] is the
    block after [memset(symp, 0, ...)].  The source assigns [damp2] twice
    and leaves [damp1] at the zero of the [memset]. *)
Definition symp_instantiate (o : malloc_oracle) (rate : Z) : option symp :=
  if o 0%nat then
    let s0 := mk_symp F32.zero [] F32.zero F32.zero F32.zero
                      F32.zero F32.zero 0 in
    let s1 := set_sample_rate s0 rate in
    let s2 := set_damp2 s1 F32.zero in
    let s3 := set_damp2 s2 F32.one in
    Some s3
  else None.

(** The state and the lines printed on standard output. *)
Definition symp_activate (o : malloc_oracle) (p : ports) (s : symp)
    : option (symp * list string) :=
  '(r, s') ← symp_setup_combs o p s;
  Some (s', if r =? 0 then ["Out of memory!"%string] else []).

Definition symp_deactivate (s : symp) : symp := symp_cleanup_combs s.

Definition symp_set_run_adding_gain (s : symp) (gain : float) : symp :=
  mk_symp gain (combs s) (damping s) (damp1 s) (damp2 s)
          (feedback s) (scaled_feedback s) (sample_rate s).

(** ** symp_run_effect *)

(** [if (w < 0) w = 0; else if (w > 1.0) w = 1.0;] *)
Definition clamp_wet (w : float) : float :=
  if F32.ltb w F32.zero then F32.zero
  else if F32.ltb F32.one w then F32.one
  else w.

(** The refresh of [damping], [damp1] and [damp2], done when the control
    value differs ([!=]) from the cached [symp->damping]. *)
Definition refresh_damping (p : ports) (s : symp) : symp :=
  if negb (F32.eqb (ctrl_damping p) (damping s)) then
    let d := ctrl_damping p in
    let d1 := F32.mul d DAMPING_RANGE in
    let d2 := F32.sub F32.one d1 in
    mk_symp (run_adding_gain s) (combs s) d d1 d2
            (feedback s) (scaled_feedback s) (sample_rate s)
  else s.

(** The refresh of [feedback] and [scaled_feedback], done when the control
    value differs ([!=]) from the cached [symp->feedback]. *)
Definition refresh_feedback (p : ports) (s : symp) : symp :=
  if negb (F32.eqb (ctrl_feedback p) (feedback s)) then
    let f := ctrl_feedback p in
    mk_symp (run_adding_gain s) (combs s) (damping s) (damp1 s) (damp2 s)
            f (F32.add FEEDBACK_OFFSET (F32.mul f FEEDBACK_RANGE))
            (sample_rate s)
  else s.

(** The body of the loop over the combs, for one comb: the tapped value
    [tmp] and the comb after the step.  [d1], [d2] are [symp->damp1] and
    [symp->damp2], [fb] is the local [feedback]. *)
Definition comb_advance (x d1 d2 fb : float) (c : comb)
    : option (float * comb) :=
  b ← buffer c;
  if idx c <? 0 then None
  else
    tmp ← b !! Z.to_nat (idx c);
    let st := F32.add (F32.mul tmp d2) (F32.mul (store c) d1) in
    let b' := <[Z.to_nat (idx c) := F32.add x (F32.mul st fb)]> b in
    let i' := idx c + 1 in
    Some (tmp, mk_comb st (Some b') (size c) (if size c <=? i' then 0 else i')).

(** [for (c = 0; c < symp->num_combs; c++) { ...; out += tmp; }] *)
Fixpoint run_combs (x d1 d2 fb : float) (cs : list comb) (out : float)
    : option (float * list comb) :=
  match cs with
  | [] => Some (out, [])
  | c :: cs' =>
      '(tmp, c') ← comb_advance x d1 d2 fb c;
      '(out', cs'') ← run_combs x d1 d2 fb cs' (F32.add out tmp);
      Some (out', c' :: cs'')
  end.

(** The two output buffers and the positions of the pointers [out1] and
    [out2] in them. *)
Record outbufs : Type := mk_outbufs {
  out1 : list float;
  pos1 : nat;
  out2 : list float;
  pos2 : nat
}.

(** Store [v] through the pointer at position [q] (which the caller then
    advances); undefined outside the buffer. *)
Definition write_at (l : list float) (q : nat) (v : float)
    : option (list float) :=
  _ ← l !! q; Some (<[q := v]> l).

(** Add [v] to the sample at position [q]; undefined outside the buffer. *)
Definition accum_at (l : list float) (q : nat) (v : float)
    : option (list float) :=
  old ← l !! q; Some (<[q := F32.add old v]> l).

(** [if (add) { ... } else { ... }] at the end of the sample loop. *)
Definition mix_sample (add : bool) (out adding_gain wet_left wet_right : float)
    (ob : outbufs) : option outbufs :=
  if add then
    ob1 ← (if F32.ltb F32.zero wet_left then
             l ← accum_at (out1 ob) (pos1 ob)
                   (F32.mul (F32.mul out adding_gain) wet_left);
             Some (mk_outbufs l (S (pos1 ob)) (out2 ob) (pos2 ob))
           else Some ob);
    if F32.ltb F32.zero wet_right then
      l ← accum_at (out2 ob1) (pos2 ob1)
            (F32.mul (F32.mul out adding_gain) wet_right);
      Some (mk_outbufs (out1 ob1) (pos1 ob1) l (S (pos2 ob1)))
    else Some ob1
  else
    l1 ← write_at (out1 ob) (pos1 ob) (F32.mul out wet_left);
    l2 ← write_at (out2 ob) (pos2 ob) (F32.mul out wet_right);
    Some (mk_outbufs l1 (S (pos1 ob)) l2 (S (pos2 ob))).

(** [for (i = 0; i < sample_count; i++) { ... }]: [n] samples are left,
    [i] is the position of [audio_input]. *)
Fixpoint run_samples (add : bool)
    (adding_gain input_gain wet_left wet_right d1 d2 fb : float)
    (input : list float) (n i : nat) (cs : list comb) (ob : outbufs)
    : option (list comb * outbufs) :=
  match n with
  | O => Some (cs, ob)
  | S n' =>
      a ← input !! i;
      '(out, cs') ← run_combs (F32.mul a input_gain) d1 d2 fb cs F32.zero;
      ob' ← mix_sample add out adding_gain wet_left wet_right ob;
      run_samples add adding_gain input_gain wet_left wet_right d1 d2 fb
                  input n' (S i) cs' ob'
  end.

(** The counter [i] is an [int]: a block of more than [INT_MAX] samples
    overflows it. *)
Definition symp_run_effect (p : ports) (s : symp) (sample_count : nat)
    (add : bool) : option (symp * ports) :=
  let adding_gain := run_adding_gain s in
  let input_gain := ctrl_gain_input p in
  let wet_left := clamp_wet (ctrl_wet_left p) in
  let wet_right := clamp_wet (ctrl_wet_right p) in
  let s1 := refresh_feedback p (refresh_damping p s) in
  let fb := scaled_feedback s1 in
  if F32.INT_MAX <? Z.of_nat sample_count then None
  else
    '(cs, ob) ← run_samples add adding_gain input_gain wet_left wet_right
                  (damp1 s1) (damp2 s1) fb (audio_input p) sample_count 0
                  (combs s1)
                  (mk_outbufs (audio_output1 p) 0 (audio_output2 p) 0);
    Some (set_combs s1 cs, set_outputs p (out1 ob) (out2 ob)).

Definition symp_run (p : ports) (s : symp) (sample_count : nat)
    : option (symp * ports) :=
  symp_run_effect p s sample_count false.

Definition symp_run_adding (p : ports) (s : symp) (sample_count : nat)
    : option (symp * ports) :=
  symp_run_effect p s sample_count true.

(** ** Derived definitions used in the statements *)

(** A comb as the sample loop expects it: a buffer of [size] samples and
    an index inside it (so [size >= 1]). *)
Definition comb_ok (c : comb) : Prop :=
  exists b, buffer c = Some b /\ Z.of_nat (length b) = size c /\
            0 <= idx c < size c.

(** One comb stepped through the successive samples [xs] of a block: the
    tapped values, in order, and the comb at the end. *)
Fixpoint comb_feed (d1 d2 fb : float) (c : comb) (xs : list float)
    : option (list float * comb) :=
  match xs with
  | [] => Some ([], c)
  | x :: xs' =>
      '(tmp, c') ← comb_advance x d1 d2 fb c;
      '(outs, c'') ← comb_feed d1 d2 fb c' xs';
      Some (tmp :: outs, c'')
  end.

(** A unit impulse followed by [n] zeros. *)
Definition impulse (n : nat) : list float :=
  F32.one :: replicate n F32.zero.

(** The delay line of length [L] once the impulse sits at position 0, and
    what it holds at the position reached after [k] steps. *)
Definition ring (L : nat) : list float :=
  <[0%nat := F32.one]> (replicate L F32.zero).

Definition tap_at (L k : nat) : float :=
  if (k mod L =? 0)%nat then F32.one else F32.zero.

Definition bit (x : float) : Prop := x = F32.zero \/ x = F32.one.

(** The sums [out] of the bank for the samples [i], [i+1], ... of a block,
    and the combs at the end: the sample loop without its output part. *)
Fixpoint bank_outs (input_gain d1 d2 fb : float) (input : list float)
    (n i : nat) (cs : list comb) : option (list float * list comb) :=
  match n with
  | O => Some ([], cs)
  | S n' =>
      a ← input !! i;
      '(out, cs') ← run_combs (F32.mul a input_gain) d1 d2 fb cs F32.zero;
      '(outs, cs'') ← bank_outs input_gain d1 d2 fb input n' (S i) cs';
      Some (out :: outs, cs'')
  end.

(** What [mix_sample] does to one channel: the buffer and the position of
    its pointer. *)
Definition mix_channel (add : bool) (out adding_gain wet : float)
    (l : list float) (q : nat) : option (list float * nat) :=
  if add then
    if F32.ltb F32.zero wet then
      l' ← accum_at l q (F32.mul (F32.mul out adding_gain) wet);
      Some (l', S q)
    else Some (l, q)
  else
    l' ← write_at l q (F32.mul out wet);
    Some (l', S q).

Definition swap_bufs (ob : outbufs) : outbufs :=
  mk_outbufs (out2 ob) (pos2 ob) (out1 ob) (pos1 ob).

(** The output sample a channel ends with, from its prior content [old],
    the bank sum [m] and the gain [wet] in force. *)
Definition mixed_cell (add : bool) (adding_gain wet : float)
    (old : option float) (m : float) : option float :=
  if add then
    if F32.ltb F32.zero wet then
      o ← old; Some (F32.add o (F32.mul (F32.mul m adding_gain) wet))
    else old
  else Some (F32.mul m wet).

(** A tuning slot is active when its frequency is positive. *)
Definition active (t : float) : bool := F32.ltb F32.zero t.

Definition delay_length (rate : Z) (t : float) : Z :=
  default 0 (comb_size rate t).

(** The combs of the active slots among [ts], in slot order. *)
Definition built_combs (rate : Z) (ts : list float) : list comb :=
  (fun t => new_comb (delay_length rate t)) <$> List.filter active ts.

(** Agreement of two effect states on everything [symp_run_effect] reads
    or writes: the combs, the cached coefficients and the adding gain. *)
Definition same_effect_state (s1 s2 : symp) : Prop :=
  combs s1 = combs s2 /\
  damping s1 = damping s2 /\ damp1 s1 = damp1 s2 /\ damp2 s1 = damp2 s2 /\
  feedback s1 = feedback s2 /\ scaled_feedback s1 = scaled_feedback s2 /\
  run_adding_gain s1 = run_adding_gain s2.

(** Agreement of two port memories on the controls of a block, its input
    and the prior content of its output buffers. *)
Definition same_block (p1 p2 : ports) : Prop :=
  ctrl_feedback p1 = ctrl_feedback p2 /\
  ctrl_damping p1 = ctrl_damping p2 /\
  ctrl_gain_input p1 = ctrl_gain_input p2 /\
  ctrl_wet_left p1 = ctrl_wet_left p2 /\
  ctrl_wet_right p1 = ctrl_wet_right p2 /\
  audio_input p1 = audio_input p2 /\
  audio_output1 p1 = audio_output1 p2 /\
  audio_output2 p1 = audio_output2 p2.

(** The conversions [symp_setup_combs] performs on the tunings [ts] are
    defined: every tuning the loop does not skip has a delay length that
    fits an [int] (which rules out NaN, infinite and overflowing
    quotients). *)
Definition tunings_defined (rate : Z) (ts : list float) : Prop :=
  Forall (fun t => F32.leb t F32.zero = false -> is_Some (comb_size rate t))
         ts.

(** ** Concrete inputs *)

Definition all_succeed : malloc_oracle := fun _ => true.

(** Every [malloc] succeeds but call number [k] (counted from 0). *)
Definition fails_at (k : nat) : malloc_oracle := fun n => negb (n =? k)%nat.

(** Ports with the given tunings in the first slots and the other slots
    inactive, the given feedback and wet gains, damping 0, input gain 1,
    an input block and output buffers holding [prior]. *)
Definition example_ports (tunings : list Z) (fb wl wr : float)
    (input prior : list float) : ports :=
  mk_ports ((F32.of_Z <$> tunings) ++
              replicate (COMB_COUNT - length tunings) F32.zero)
           fb F32.zero F32.one wl wr input prior prior.

(** The effect [symp_instantiate] returns for 48000 Hz. *)
Definition fresh_state : symp :=
  mk_symp F32.zero [] F32.zero F32.zero F32.one F32.zero F32.zero 48000.

(** The same effect after an activation with strings at 440 and 220 Hz. *)
Definition two_comb_state : symp :=
  set_combs fresh_state [new_comb 109; new_comb 218].

(** An effect at 48000 Hz holding one comb of delay length 2, with adding
    gain 1: what [symp_instantiate], [symp_activate] with one string tuned
    to 24000 Hz and [symp_set_run_adding_gain] leave. *)
Definition demo_state : symp :=
  mk_symp F32.one [new_comb 2] F32.zero F32.zero F32.one F32.zero F32.zero
          48000.

(** A block of four samples (an impulse), feedback 0.5, raw wet gains -1
    (left) and 2 (right), output buffers holding ones. *)
Definition demo_ports : ports :=
  example_ports [24000] (F32.literal 1 2) (F32.of_Z (-1)) (F32.of_Z 2)
                (impulse 3) (replicate 4 F32.one).

(** Three tuning slots in use, the middle one switched off. *)
Definition demo_tunings : list float := F32.of_Z <$> [440; -5; 220].

Definition demo_tuning_ports : ports :=
  example_ports [440; -5; 220] (F32.literal 1 2) F32.one F32.one
                (impulse 0) [F32.zero].

(** The first [process()] of a fresh effect, with the feedback control
    at 0. *)
Definition zero_feedback_ports : ports :=
  example_ports [24000] F32.zero F32.one F32.one (impulse 4)
                (replicate 5 F32.zero).

Definition half_feedback_ports : ports :=
  example_ports [24000] (F32.literal 1 2) F32.one F32.one (impulse 4)
                (replicate 5 F32.zero).

(** Two strings, at 440 Hz and 220 Hz. *)
Definition two_string_ports : ports :=
  example_ports [440; 220] (F32.literal 1 2) F32.one F32.one
                (impulse 0) [F32.zero].

(** One string tuned above the sample rate (48000 Hz at 44100 Hz). *)
Definition high_tuning_ports : ports :=
  example_ports [48000] (F32.literal 1 2) F32.one F32.one
                (impulse 0) [F32.zero].

(** ** Further definitions: lifecycle, silence, port binding *)

(** A zero of either sign; a zero or a finite number. *)
Definition is_zero (x : float) : bool :=
  match x with S754_zero _ => true | _ => false end.

Definition is_finite (x : float) : bool :=
  match x with S754_zero _ | S754_finite _ _ _ => true | _ => false end.

(** A comb that holds no energy: a zero store and a buffer of zeros. *)
Definition silent_comb (c : comb) : Prop :=
  is_zero (store c) = true /\
  exists b, buffer c = Some b /\ Forall (fun x => is_zero x = true) b.

(** The cached damping coefficients agree with the cached raw damping. *)
Definition damping_cache_ok (s : symp) : Prop :=
  damp1 s = F32.mul (damping s) DAMPING_RANGE /\
  damp2 s = F32.sub F32.one (damp1 s).

(** The cached scaled feedback agrees with the cached raw feedback. *)
Definition feedback_cache_ok (s : symp) : Prop :=
  scaled_feedback s =
    F32.add FEEDBACK_OFFSET (F32.mul (feedback s) FEEDBACK_RANGE).

(** The effect states a host can reach for a given sample rate through the
    entry points of the descriptor, as long as no call is undefined. *)
Inductive reachable (rate : Z) : symp -> Prop :=
  | reach_instantiate (o : malloc_oracle) (s : symp) :
      symp_instantiate o rate = Some s -> reachable rate s
  | reach_activate (o : malloc_oracle) (p : ports) (s s' : symp)
      (printed : list string) :
      reachable rate s ->
      symp_activate o p s = Some (s', printed) -> reachable rate s'
  | reach_deactivate (s : symp) :
      reachable rate s -> reachable rate (symp_deactivate s)
  | reach_set_run_adding_gain (s : symp) (gain : float) :
      reachable rate s -> reachable rate (symp_set_run_adding_gain s gain)
  | reach_run_effect (p p' : ports) (s s' : symp) (n : nat) (add : bool) :
      reachable rate s ->
      symp_run_effect p s n add = Some (s', p') -> reachable rate s'.

(** The port pointers of [struct symp]: what [symp_connect_port] writes.  A
    pointer is an address, 0 for NULL; [ctrl_tunings] has [COMB_COUNT]
    entries. *)
Module Binding.

Definition pointer : Type := Z.

Record t : Type := mk {
  ctrl_tunings : list pointer;
  ctrl_feedback : pointer;
  ctrl_damping : pointer;
  ctrl_gain_input : pointer;
  ctrl_wet_left : pointer;
  ctrl_wet_right : pointer;
  ctrl_input_gain : pointer;
  audio_input : pointer;
  audio_output1 : pointer;
  audio_output2 : pointer
}.

End Binding.

Definition PORT_FEEDBACK : nat := COMB_COUNT + 0.
Definition PORT_DAMPING : nat := COMB_COUNT + 1.
Definition PORT_GAIN_INPUT : nat := COMB_COUNT + 2.
Definition PORT_WET_LEFT : nat := COMB_COUNT + 3.
Definition PORT_WET_RIGHT : nat := COMB_COUNT + 4.
Definition PORT_INPUT : nat := COMB_COUNT + 5.
Definition PORT_OUTPUT1 : nat := COMB_COUNT + 6.
Definition PORT_OUTPUT2 : nat := COMB_COUNT + 7.

(** [.PortCount] of [symp_descriptor]. *)
Definition PortCount : nat := COMB_COUNT + 5 + 3.

(** [symp_connect_port]; [port] is an [unsigned long].  A [switch] value
    that matches no [case] does nothing. *)
Definition symp_connect_port (b : Binding.t) (port : nat)
    (buf : Binding.pointer) : Binding.t :=
  let '(Binding.mk tun fb dmp gin wl wr ing inp o1 o2) := b in
  if (port <? COMB_COUNT)%nat then
    Binding.mk (<[port := buf]> tun) fb dmp gin wl wr ing inp o1 o2
  else if (port =? PORT_FEEDBACK)%nat then
    Binding.mk tun buf dmp gin wl wr ing inp o1 o2
  else if (port =? PORT_DAMPING)%nat then
    Binding.mk tun fb buf gin wl wr ing inp o1 o2
  else if (port =? PORT_GAIN_INPUT)%nat then
    Binding.mk tun fb dmp buf wl wr ing inp o1 o2
  else if (port =? PORT_WET_LEFT)%nat then
    Binding.mk tun fb dmp gin buf wr ing inp o1 o2
  else if (port =? PORT_WET_RIGHT)%nat then
    Binding.mk tun fb dmp gin wl buf ing inp o1 o2
  else if (port =? PORT_INPUT)%nat then
    Binding.mk tun fb dmp gin wl wr ing buf o1 o2
  else if (port =? PORT_OUTPUT1)%nat then
    Binding.mk tun fb dmp gin wl wr ing inp buf o2
  else if (port =? PORT_OUTPUT2)%nat then
    Binding.mk tun fb dmp gin wl wr ing inp o1 buf
  else b.

(** The pointer a port index stands for, by the [PORT_] macros; [None] for
    an index the plugin has no port for. *)
Definition bound_to (b : Binding.t) (port : nat) : option Binding.pointer :=
  if (port <? COMB_COUNT)%nat then Binding.ctrl_tunings b !! port
  else if (port =? PORT_FEEDBACK)%nat then Some (Binding.ctrl_feedback b)
  else if (port =? PORT_DAMPING)%nat then Some (Binding.ctrl_damping b)
  else if (port =? PORT_GAIN_INPUT)%nat then Some (Binding.ctrl_gain_input b)
  else if (port =? PORT_WET_LEFT)%nat then Some (Binding.ctrl_wet_left b)
  else if (port =? PORT_WET_RIGHT)%nat then Some (Binding.ctrl_wet_right b)
  else if (port =? PORT_INPUT)%nat then Some (Binding.audio_input b)
  else if (port =? PORT_OUTPUT1)%nat then Some (Binding.audio_output1 b)
  else if (port =? PORT_OUTPUT2)%nat then Some (Binding.audio_output2 b)
  else None.

(** The pointers of a handle right after [symp_instantiate]: all NULL. *)
Definition unbound : Binding.t :=
  Binding.mk (replicate COMB_COUNT 0) 0 0 0 0 0 0 0 0 0.

(** The port memory as the host passes it for the next block: the same
    controls, the three audio pointers moved [n] samples on. *)
Definition advance_ports (n : nat) (p : ports) : ports :=
  mk_ports (ctrl_tunings p) (ctrl_feedback p) (ctrl_damping p)
           (ctrl_gain_input p) (ctrl_wet_left p) (ctrl_wet_right p)
           (drop n (audio_input p)) (drop n (audio_output1 p))
           (drop n (audio_output2 p)).

(** Whether the sample loop writes a channel: always in Replace mode, and
    in Add mode when the gain is positive. *)
Definition writes (add : bool) (wet : float) : bool :=
  negb add || F32.ltb F32.zero wet.

Arguments F32.add : simpl never.
Arguments F32.sub : simpl never.
Arguments F32.mul : simpl never.
Arguments F32.div : simpl never.

(** ** Facts of binary32 arithmetic *)

Section FloatFacts.

Lemma one_bits : F32.one = S754_finite false 8388608 (-23).
Proof. reflexivity. Qed.

Lemma FEEDBACK_OFFSET_bits :
  FEEDBACK_OFFSET = S754_finite false 16106127 (-24).
Proof. reflexivity. Qed.

Lemma FEEDBACK_RANGE_bits :
  FEEDBACK_RANGE = S754_finite false 10468983 (-28).
Proof. reflexivity. Qed.

Lemma DAMPING_RANGE_bits :
  DAMPING_RANGE = S754_finite false 8388608 (-24).
Proof. reflexivity. Qed.

Lemma compare_antisym (x y : float) :
  SFcompare y x = CompOpp <$> SFcompare x y.
Proof.
  destruct x as [sx|sx| |sx mx ex], y as [sy|sy| |sy my ey];
    try (by destruct sx); try (by destruct sy); try (by destruct sx, sy);
    try reflexivity.
  pose proof (Pos.compare_cont_antisym mx my Eq) as Hm.
  simpl in *.
  rewrite (Z.compare_antisym ey ex).
  destruct sx, sy; simpl; try reflexivity;
    destruct (ey ?= ex); simpl; try reflexivity; congruence.
Qed.

Lemma ltb_leb_false (x y : float) :
  F32.leb x y = true -> F32.ltb y x = false.
Proof.
  unfold F32.leb, F32.ltb, SFleb, SFltb.
  rewrite (compare_antisym x y).
  by destruct (SFcompare x y) as [[]|].
Qed.

Lemma ltb_zero_one_trans (w : float) :
  F32.ltb F32.one w = true -> F32.ltb w F32.zero = false.
Proof. by destruct w as [[]|[]| |[] m e]. Qed.

Lemma eqb_zero_not_pos (w : float) :
  F32.eqb w F32.zero = true -> F32.ltb F32.zero w = false.
Proof. by destruct w as [[]|[]| |[] m e]. Qed.

(** Not NaN: [t <= 0] fails exactly when [0 < t]. *)
Lemma leb_zero_ltb (t : float) :
  F32.is_nan t = false ->
  F32.leb t F32.zero = negb (F32.ltb F32.zero t).
Proof. by destruct t as [[]|[]| |[] m e]. Qed.

End FloatFacts.

(** ** The comb step *)

(** C1.  For a comb whose buffer holds [size >= 1] samples and whose index
    lies inside it, one step of the comb loop returns the sample [tapped]
    found at the index before anything is written; the new store is
    [tapped * dampLow + store * dampHigh]; the sample at the index is
    replaced by [inputSample + newStore * feedback], computed from the store
    just updated; and the index becomes [(idx + 1) mod size].  Here
    [dampHigh] is [damp1] and [dampLow] is [damp2]. *)
Theorem comb_advance_order (inputSample dampHigh dampLow fb : float)
    (c : comb) (b : list float) :
  buffer c = Some b ->
  Z.of_nat (length b) = size c ->
  1 <= size c ->
  0 <= idx c < size c ->
  exists tapped,
    b !! Z.to_nat (idx c) = Some tapped /\
    let feedbackStore :=
      F32.add (F32.mul tapped dampLow) (F32.mul (store c) dampHigh) in
    comb_advance inputSample dampHigh dampLow fb c =
      Some (tapped,
            mk_comb feedbackStore
              (Some (<[Z.to_nat (idx c) :=
                        F32.add inputSample (F32.mul feedbackStore fb)]> b))
              (size c)
              ((idx c + 1) mod size c)).
Proof.
  intros Hb Hlen Hsz Hidx.
  destruct (lookup_lt_is_Some_2 b (Z.to_nat (idx c))) as [tapped Ht]; [lia|].
  exists tapped. split; [done|].
  unfold comb_advance. rewrite Hb. simpl.
  destruct (Z.ltb_spec (idx c) 0) as [?|_]; [lia|].
  rewrite Ht. simpl. do 3 f_equal.
  destruct (Z.leb_spec (size c) (idx c + 1)).
  - assert (idx c + 1 = size c) as -> by lia. by rewrite Z.mod_same by lia.
  - by rewrite Z.mod_small by lia.
Qed.

Lemma comb_advance_order_witness :
  (1 <= 2 /\ 0 <= 0 < 2) /\
  exists tapped,
    [F32.one; F32.zero] !! 0%nat = Some tapped /\
    comb_advance F32.zero F32.zero F32.one F32.one
      (mk_comb F32.zero (Some [F32.one; F32.zero]) 2 0) =
    Some (tapped,
          mk_comb (F32.add (F32.mul tapped F32.one)
                           (F32.mul F32.zero F32.zero))
            (Some (<[0%nat :=
                      F32.add F32.zero
                        (F32.mul (F32.add (F32.mul tapped F32.one)
                                          (F32.mul F32.zero F32.zero))
                                 F32.one)]> [F32.one; F32.zero]))
            2 1).
Proof.
  split; [lia|].
  apply (comb_advance_order F32.zero F32.zero F32.one F32.one
           (mk_comb F32.zero (Some [F32.one; F32.zero]) 2 0)
           [F32.one; F32.zero]); simpl; try reflexivity; lia.
Defined.

(** ** Recirculation of an impulse *)

Section Impulse.

Variable L : nat.
Hypothesis L_pos : (1 <= L)%nat.

Lemma bit_tap_at k : bit (tap_at L k).
Proof. unfold bit, tap_at. destruct (_ =? _)%nat; auto. Qed.

Lemma undamped_store (v st : float) :
  bit v -> bit st ->
  F32.add (F32.mul v F32.one) (F32.mul st F32.zero) = v.
Proof. by intros [-> | ->] [-> | ->]. Qed.

Lemma unit_feedback (v : float) :
  bit v -> F32.add F32.zero (F32.mul v F32.one) = v.
Proof. by intros [-> | ->]. Qed.

Lemma ring_lookup (k : nat) : ring L !! (k mod L)%nat = Some (tap_at L k).
Proof.
  assert (k mod L < L)%nat by (apply Nat.mod_upper_bound; lia).
  unfold ring, tap_at.
  generalize dependent (k mod L)%nat. intros r Hr.
  destruct (Nat.eqb_spec r 0) as [->|Hne].
  - apply list_lookup_insert_eq. rewrite length_replicate. lia.
  - rewrite list_lookup_insert_ne by lia.
    by apply lookup_replicate_2.
Qed.

(** [if (++comb->idx >= comb->size) comb->idx = 0] walks the ring. *)
Lemma next_index (k : nat) :
  (if Z.of_nat L <=? Z.of_nat (k mod L) + 1 then 0
   else Z.of_nat (k mod L) + 1) = Z.of_nat (S k mod L).
Proof.
  assert (k mod L < L)%nat by (apply Nat.mod_upper_bound; lia).
  replace (S k) with (k + 1)%nat by lia.
  rewrite <- Nat.Div0.add_mod_idemp_l.
  generalize dependent (k mod L)%nat. intros r Hr.
  destruct (Z.leb_spec (Z.of_nat L) (Z.of_nat r + 1)).
  - replace (r + 1)%nat with L by lia.
    by rewrite Nat.Div0.mod_same.
  - rewrite Nat.mod_small by lia. lia.
Qed.

(** With no damping and unit feedback a zero input rewrites the tapped
    sample in place. *)
Lemma advance_recirculates (k : nat) (st : float) :
  bit st ->
  comb_advance F32.zero F32.zero F32.one F32.one
    (mk_comb st (Some (ring L)) (Z.of_nat L) (Z.of_nat (k mod L))) =
  Some (tap_at L k,
        mk_comb (tap_at L k) (Some (ring L)) (Z.of_nat L)
                (Z.of_nat (S k mod L))).
Proof.
  intros Hst. unfold comb_advance. simpl.
  destruct (Z.ltb_spec (Z.of_nat (k mod L)) 0) as [?|_]; [lia|].
  rewrite Nat2Z.id, ring_lookup. simpl.
  rewrite (undamped_store _ _ (bit_tap_at k) Hst).
  rewrite (unit_feedback _ (bit_tap_at k)).
  rewrite (list_insert_id _ _ _ (ring_lookup k)).
  by rewrite next_index.
Qed.

Lemma feed_zeros (n : nat) : forall (k : nat) (st : float),
  bit st ->
  exists c',
    comb_feed F32.zero F32.one F32.one
      (mk_comb st (Some (ring L)) (Z.of_nat L) (Z.of_nat (k mod L)))
      (replicate n F32.zero) =
    Some ((fun j => tap_at L (k + j)) <$> seq 0 n, c').
Proof.
  induction n as [|n IH]; intros k st Hst.
  - by eexists.
  - destruct (IH (S k) (tap_at L k) (bit_tap_at k)) as [c' Hc'].
    exists c'. simpl replicate. cbn [comb_feed].
    rewrite (advance_recirculates k st Hst). simpl.
    rewrite Hc'. simpl. do 3 f_equal.
    + by rewrite Nat.add_0_r.
    + rewrite <- fmap_S_seq, <- list_fmap_compose.
      apply list_fmap_ext. intros _ j _. simpl. f_equal. lia.
Qed.

End Impulse.

(** C5.  A freshly built comb of delay length [L >= 1], fed a unit impulse
    and then [n] zeros with no damping ([dampHigh = 0], [dampLow = 1]) and
    feedback 1, outputs exactly 1.0 at the sample indices [L], [2L], [3L],
    ... and 0 at every other index, for every [n]. *)
Theorem impulse_recirculates (L n : nat) :
  (1 <= L)%nat ->
  exists c',
    comb_feed F32.zero F32.one F32.one (new_comb (Z.of_nat L)) (impulse n) =
    Some ((fun k => if ((0 <? k) && (k mod L =? 0))%nat
                    then F32.one else F32.zero) <$> seq 0 (S n), c').
Proof.
  intros HL.
  destruct (feed_zeros L HL n 1 F32.zero) as [c' Hc']; [by left|].
  exists c'. unfold impulse, new_comb. cbn [comb_feed].
  unfold comb_advance. cbn [buffer idx store size mbind option_bind].
  rewrite Nat2Z.id.
  change (0 <? 0) with false. cbn iota.
  change (Z.to_nat 0) with 0%nat.
  rewrite lookup_replicate_2 by lia. cbn [mbind option_bind].
  change (F32.add (F32.mul F32.zero F32.one) (F32.mul F32.zero F32.zero))
    with F32.zero.
  change (F32.add F32.one (F32.mul F32.zero F32.one)) with F32.one.
  pose proof (next_index L HL 0) as Hidx.
  rewrite Nat.Div0.mod_0_l in Hidx. change (Z.of_nat 0) with 0 in Hidx.
  fold (ring L).
  rewrite Hidx, Hc'. cbn [mbind option_bind].
  do 2 f_equal. cbn [seq fmap list_fmap]. f_equal.
  rewrite <- fmap_S_seq, <- list_fmap_compose.
  apply list_fmap_ext. intros _ j _. reflexivity.
Qed.

Lemma impulse_recirculates_witness :
  (1 <= 3)%nat /\
  exists c',
    comb_feed F32.zero F32.one F32.one (new_comb 3) (impulse 7) =
    Some ([F32.zero; F32.zero; F32.zero; F32.one;
           F32.zero; F32.zero; F32.one; F32.zero], c').
Proof.
  split; [lia|]. apply (impulse_recirculates 3 7). lia.
Defined.

(** ** The output part of the sample loop *)

Section Mixing.

Variables (add : bool) (adding_gain input_gain d1 d2 fb : float).
Variable input : list float.

(** [mix_sample] treats the two channels alike, the left one first. *)
Lemma mix_sample_channels (out wl wr : float) (ob : outbufs) :
  mix_sample add out adding_gain wl wr ob =
  '(l1, q1) ← mix_channel add out adding_gain wl (out1 ob) (pos1 ob);
  '(l2, q2) ← mix_channel add out adding_gain wr (out2 ob) (pos2 ob);
  Some (mk_outbufs l1 q1 l2 q2).
Proof.
  destruct ob as [o1 q1 o2 q2].
  unfold mix_sample, mix_channel. simpl.
  destruct add.
  - destruct (F32.ltb F32.zero wl), (F32.ltb F32.zero wr); simpl;
      repeat (match goal with |- context [accum_at ?l ?q ?v] =>
                destruct (accum_at l q v); simpl end); reflexivity.
  - repeat (match goal with |- context [write_at ?l ?q ?v] =>
              destruct (write_at l q v); simpl end); reflexivity.
Qed.

Lemma mix_sample_swap (out wl wr : float) (ob : outbufs) :
  mix_sample add out adding_gain wr wl (swap_bufs ob) =
  swap_bufs <$> mix_sample add out adding_gain wl wr ob.
Proof.
  rewrite !mix_sample_channels. simpl.
  destruct (mix_channel add out adding_gain wl (out1 ob) (pos1 ob))
    as [[l1 q1]|];
    destruct (mix_channel add out adding_gain wr (out2 ob) (pos2 ob))
      as [[l2 q2]|]; reflexivity.
Qed.

Lemma run_samples_swap (wl wr : float) (n : nat) :
  forall (i : nat) (cs : list comb) (ob : outbufs),
    run_samples add adding_gain input_gain wr wl d1 d2 fb input n i cs
                (swap_bufs ob) =
    prod_map id swap_bufs <$>
      run_samples add adding_gain input_gain wl wr d1 d2 fb input n i cs ob.
Proof.
  induction n as [|n IH]; intros i cs ob; simpl.
  - reflexivity.
  - destruct (input !! i) as [a|]; [simpl|reflexivity].
    destruct (run_combs _ _ _ _ _ _) as [[out cs']|]; [simpl|reflexivity].
    rewrite mix_sample_swap.
    destruct (mix_sample _ _ _ _ _ _) as [ob'|]; [simpl|reflexivity].
    apply IH.
Qed.

(** One sample on one channel: only the sample under the pointer changes,
    and a pointer that stays put means nothing was written. *)
Lemma mix_channel_spec (out w : float) (l l' : list float) (q q' : nat) :
  mix_channel add out adding_gain w l q = Some (l', q') ->
  length l' = length l /\
  (forall k, k <> q -> l' !! k = l !! k) /\
  l' !! q = mixed_cell add adding_gain w (l !! q) out /\
  (q' = S q \/
   (q' = q /\ l' = l /\ add = true /\ F32.ltb F32.zero w = false)).
Proof.
  unfold mix_channel, mixed_cell, accum_at, write_at.
  destruct add; [destruct (F32.ltb F32.zero w) eqn:Hw|];
    try (destruct (l !! q) as [old|] eqn:Hq; simpl; [|discriminate]);
    intros [= <- <-];
    repeat split;
    try (by rewrite length_insert);
    try (by intros k Hk; rewrite list_lookup_insert_ne);
    try (by apply list_lookup_insert_eq, lookup_lt_is_Some_1);
    auto.
Qed.

Lemma mix_sample_left (out wl wr : float) (ob ob' : outbufs) :
  mix_sample add out adding_gain wl wr ob = Some ob' ->
  mix_channel add out adding_gain wl (out1 ob) (pos1 ob) =
    Some (out1 ob', pos1 ob').
Proof.
  rewrite mix_sample_channels.
  destruct (mix_channel add out adding_gain wl _ _) as [[l1 q1]|];
    [simpl|discriminate].
  destruct (mix_channel add out adding_gain wr _ _) as [[l2 q2]|];
    [simpl|discriminate].
  by intros [= <-].
Qed.

(** The sample loop, seen from the left channel: the combs evolve as in
    [bank_outs], and the sample at the [j]-th position after the pointer is
    the [mixed_cell] of the [j]-th bank sum. *)
Lemma run_samples_left (wl wr : float) (n : nat) :
  forall (i : nat) (cs cs' : list comb) (ob ob' : outbufs),
    run_samples add adding_gain input_gain wl wr d1 d2 fb input n i cs ob =
      Some (cs', ob') ->
    exists mixed,
      bank_outs input_gain d1 d2 fb input n i cs = Some (mixed, cs') /\
      length mixed = n /\
      length (out1 ob') = length (out1 ob) /\
      (forall q, (q < pos1 ob)%nat -> out1 ob' !! q = out1 ob !! q) /\
      (forall j m, mixed !! j = Some m ->
         out1 ob' !! (pos1 ob + j)%nat =
         mixed_cell add adding_gain wl (out1 ob !! (pos1 ob + j)%nat) m) /\
      (add = true -> F32.ltb F32.zero wl = false -> out1 ob' = out1 ob).
Proof.
  induction n as [|n IH]; intros i cs cs' ob ob'; simpl.
  - intros [= <- <-]. exists []. repeat split; auto. by intros [|?] ?.
  - destruct (input !! i) as [a|]; [simpl|discriminate].
    destruct (run_combs _ _ _ _ _ _) as [[out cs1]|]; [simpl|discriminate].
    destruct (mix_sample _ _ _ _ _ _) as [ob1|] eqn:Hmix;
      [simpl|discriminate].
    intros Hrun.
    destruct (IH _ _ _ _ _ Hrun)
      as (mixed & -> & Hlen & Hl & Hbelow & Hcells & Hfrozen).
    apply mix_sample_left, mix_channel_spec in Hmix
      as (Hl1 & Hother & Hhere & Hpos).
    exists (out :: mixed). simpl.
    destruct Hpos as [Hpos | (Hpos & Hsame & Hadd & Hw)].
    + repeat split.
      * by rewrite Hlen.
      * congruence.
      * intros q Hq. rewrite Hbelow by lia. apply Hother. lia.
      * intros [|j] m Hm; simpl in Hm.
        -- injection Hm as <-. rewrite Nat.add_0_r, Hbelow by lia. done.
        -- replace (pos1 ob + S j)%nat with (pos1 ob1 + j)%nat by lia.
           rewrite (Hcells _ _ Hm). f_equal. apply Hother. lia.
      * intros Hadd Hw. rewrite (Hfrozen Hadd Hw).
        apply list_eq. intros k. destruct (decide (k = pos1 ob)) as [->|Hk].
        -- rewrite Hhere. unfold mixed_cell. by rewrite Hadd, Hw.
        -- by apply Hother.
    + rewrite (Hfrozen Hadd Hw), Hsame.
      repeat split; auto.
      intros j m _. unfold mixed_cell. by rewrite Hadd, Hw.
Qed.

Lemma run_samples_right (wl wr : float) (n i : nat) (cs cs' : list comb)
    (ob ob' : outbufs) :
  run_samples add adding_gain input_gain wl wr d1 d2 fb input n i cs ob =
    Some (cs', ob') ->
  exists mixed,
    bank_outs input_gain d1 d2 fb input n i cs = Some (mixed, cs') /\
    length mixed = n /\
    length (out2 ob') = length (out2 ob) /\
    (forall q, (q < pos2 ob)%nat -> out2 ob' !! q = out2 ob !! q) /\
    (forall j m, mixed !! j = Some m ->
       out2 ob' !! (pos2 ob + j)%nat =
       mixed_cell add adding_gain wr (out2 ob !! (pos2 ob + j)%nat) m) /\
    (add = true -> F32.ltb F32.zero wr = false -> out2 ob' = out2 ob).
Proof.
  intros Hrun.
  apply (run_samples_left wr wl n i cs cs' (swap_bufs ob) (swap_bufs ob')).
  by rewrite run_samples_swap, Hrun.
Qed.

End Mixing.

Lemma clamp_wet_below (w : float) :
  F32.ltb w F32.zero = true -> clamp_wet w = F32.zero.
Proof. unfold clamp_wet. by intros ->. Qed.

Lemma clamp_wet_above (w : float) :
  F32.ltb F32.one w = true -> clamp_wet w = F32.one.
Proof.
  intros Hw. unfold clamp_wet. by rewrite (ltb_zero_one_trans w Hw), Hw.
Qed.

Lemma clamp_wet_inside (w : float) :
  F32.leb F32.zero w = true -> F32.leb w F32.one = true -> clamp_wet w = w.
Proof.
  intros H0 H1. unfold clamp_wet.
  by rewrite (ltb_leb_false _ _ H0), (ltb_leb_false _ _ H1).
Qed.

Lemma refresh_keeps_combs (p : ports) (s : symp) :
  combs (refresh_feedback p (refresh_damping p s)) = combs s.
Proof.
  unfold refresh_feedback, refresh_damping.
  by repeat (destruct (negb _); simpl).
Qed.

(** ** Defined executions *)

Lemma new_comb_ok (sz : Z) : 1 <= sz -> comb_ok (new_comb sz).
Proof.
  intros Hsz. eexists. split; [reflexivity|].
  simpl. rewrite length_replicate. lia.
Qed.

(** The combs of an activation are well formed as soon as every active
    slot has a delay length of at least one sample. *)
Lemma built_combs_ok (rate : Z) (ts : list float) :
  Forall (fun t => active t = true -> 1 <= delay_length rate t) ts ->
  Forall comb_ok (built_combs rate ts).
Proof.
  unfold built_combs. induction 1 as [|t ts Ht _ IH]; simpl.
  - constructor.
  - destruct (active t) eqn:Hact; [|exact IH].
    constructor; [|exact IH]. apply new_comb_ok. by apply Ht.
Qed.

Lemma comb_advance_ok (x d1 d2 fb : float) (c : comb) :
  comb_ok c ->
  exists tmp c', comb_advance x d1 d2 fb c = Some (tmp, c') /\ comb_ok c'.
Proof.
  intros (b & Hb & Hlen & Hidx).
  destruct (lookup_lt_is_Some_2 b (Z.to_nat (idx c))) as [tmp Ht]; [lia|].
  unfold comb_advance. rewrite Hb. simpl.
  destruct (Z.ltb_spec (idx c) 0) as [?|_]; [lia|].
  rewrite Ht. simpl. eexists _, _. split; [reflexivity|].
  eexists. split; [reflexivity|]. simpl. rewrite length_insert.
  split; [done|]. destruct (Z.leb_spec (size c) (idx c + 1)); lia.
Qed.

Lemma run_combs_ok (x d1 d2 fb : float) (cs : list comb) :
  Forall comb_ok cs ->
  forall out, exists out' cs',
    run_combs x d1 d2 fb cs out = Some (out', cs') /\ Forall comb_ok cs'.
Proof.
  induction 1 as [|c cs Hc _ IH]; intros out; simpl.
  - by eexists _, _.
  - destruct (comb_advance_ok x d1 d2 fb c Hc) as (tmp & c' & -> & Hc').
    simpl. destruct (IH (F32.add out tmp)) as (out' & cs' & -> & Hcs').
    simpl. eexists _, _. split; [reflexivity|]. by constructor.
Qed.

Lemma mix_channel_ok (add : bool) (out adding_gain w : float)
    (l : list float) (q : nat) :
  (q < length l)%nat ->
  exists l' q',
    mix_channel add out adding_gain w l q = Some (l', q') /\
    length l' = length l /\ (q' <= S q)%nat.
Proof.
  intros [old Hold]%lookup_lt_is_Some_2.
  unfold mix_channel, accum_at, write_at. rewrite Hold. simpl.
  destruct add; [destruct (F32.ltb F32.zero w)|];
    eexists _, _; (split; [reflexivity|]);
    rewrite ?length_insert; split; auto.
Qed.

Lemma run_samples_ok (add : bool)
    (adding_gain input_gain wl wr d1 d2 fb : float) (input : list float)
    (n : nat) :
  forall (i : nat) (cs : list comb) (ob : outbufs),
    Forall comb_ok cs ->
    (i + n <= length input)%nat ->
    (pos1 ob + n <= length (out1 ob))%nat ->
    (pos2 ob + n <= length (out2 ob))%nat ->
    exists cs' ob',
      run_samples add adding_gain input_gain wl wr d1 d2 fb input n i cs ob =
        Some (cs', ob') /\
      Forall comb_ok cs'.
Proof.
  induction n as [|n IH]; intros i cs ob Hcs Hin H1 H2; simpl.
  - by eexists _, _.
  - destruct (lookup_lt_is_Some_2 input i) as [a ->]; [lia|]. simpl.
    destruct (run_combs_ok (F32.mul a input_gain) d1 d2 fb cs Hcs F32.zero)
      as (out & cs1 & -> & Hcs1).
    simpl. rewrite mix_sample_channels.
    destruct (mix_channel_ok add out adding_gain wl (out1 ob) (pos1 ob))
      as (l1 & q1 & -> & Hl1 & Hq1); [lia|].
    destruct (mix_channel_ok add out adding_gain wr (out2 ob) (pos2 ob))
      as (l2 & q2 & -> & Hl2 & Hq2); [lia|].
    simpl. apply IH; simpl; auto; lia.
Qed.

(** X1.  A block of at most [INT_MAX] samples, over a bank of well-formed
    combs and buffers that hold the block, is processed without undefined
    behaviour, and leaves the combs well formed. *)
Lemma symp_run_effect_defined (p : ports) (s : symp) (n : nat) (add : bool) :
  Forall comb_ok (combs s) ->
  Z.of_nat n <= F32.INT_MAX ->
  (n <= length (audio_input p))%nat ->
  (n <= length (audio_output1 p))%nat ->
  (n <= length (audio_output2 p))%nat ->
  exists s' p',
    symp_run_effect p s n add = Some (s', p') /\ Forall comb_ok (combs s').
Proof.
  intros Hcs Hn Hin H1 H2. unfold symp_run_effect.
  destruct (Z.ltb_spec F32.INT_MAX (Z.of_nat n)) as [?|_]; [lia|].
  rewrite refresh_keeps_combs.
  edestruct (run_samples_ok add) as (cs' & ob' & -> & Hcs');
    [exact Hcs| | | |]; simpl; try eassumption.
  simpl. by eexists _, _.
Qed.

(** ** Wet gains and output buffers *)

(** C6.  In Add mode ([symp_run_adding]), for every block length, when the
    clamped wet gain of a channel equals 0 the output buffer of that channel
    is, after the call, equal to what it was before, at every index;
    nothing is assumed of the input block, of the other channel, of the
    adding gain or of the combs. *)
Theorem add_mode_zero_wet_untouched (p p' : ports) (s s' : symp) (n : nat) :
  symp_run_adding p s n = Some (s', p') ->
  (F32.eqb (clamp_wet (ctrl_wet_left p)) F32.zero = true ->
   audio_output1 p' = audio_output1 p) /\
  (F32.eqb (clamp_wet (ctrl_wet_right p)) F32.zero = true ->
   audio_output2 p' = audio_output2 p).
Proof.
  unfold symp_run_adding, symp_run_effect.
  destruct (F32.INT_MAX <? Z.of_nat n); [discriminate|].
  destruct (run_samples _ _ _ _ _ _ _ _ _ _ _ _ _) as [[cs ob]|] eqn:Hrun;
    [simpl|discriminate].
  intros [= <- <-]. simpl. split; intros Hz%eqb_zero_not_pos.
  - apply run_samples_left in Hrun as (_ & _ & _ & _ & _ & _ & Hfrozen).
    by apply Hfrozen.
  - apply run_samples_right in Hrun as (_ & _ & _ & _ & _ & _ & Hfrozen).
    by apply Hfrozen.
Qed.

Lemma add_mode_zero_wet_untouched_witness :
  exists s' p',
    symp_run_adding demo_ports demo_state 4 = Some (s', p') /\
    F32.eqb (clamp_wet (ctrl_wet_left demo_ports)) F32.zero = true /\
    audio_output1 p' = audio_output1 demo_ports /\
    audio_output2 p' <> audio_output2 demo_ports.
Proof.
  destruct (symp_run_adding demo_ports demo_state 4) as [[s' p']|] eqn:Hrun;
    [|discriminate Hrun].
  exists s', p'. split; [reflexivity|]. split; [reflexivity|]. split.
  - apply (add_mode_zero_wet_untouched demo_ports p' demo_state s' 4 Hrun).
    reflexivity.
  - injection Hrun as _ <-. discriminate.
Defined.

(** C7.  On every call that returns, the gains applied to the output are the
    raw wet controls clamped to [0,1]: a raw value below 0 gives the gain 0,
    a raw value above 1 gives 1, a raw value inside [0,1] is used as it is.
    With [mixed] the sums of the bank for the samples of the block, output
    sample [i] of a channel is [mixed_i * gain] in Replace mode and, in Add
    mode, the prior sample plus [mixed_i * adding_gain * gain] when the gain
    is positive and the prior sample otherwise.  The clamped gains are not
    kept: the raw controls are unchanged after the call, and the effect state
    after the call is the refreshed state with the new combs, which the wet
    controls do not enter. *)
Theorem wet_gains_clamped (p p' : ports) (s s' : symp) (n : nat)
    (add : bool) :
  symp_run_effect p s n add = Some (s', p') ->
  let s1 := refresh_feedback p (refresh_damping p s) in
  let wet_left := clamp_wet (ctrl_wet_left p) in
  let wet_right := clamp_wet (ctrl_wet_right p) in
  ((F32.ltb (ctrl_wet_left p) F32.zero = true -> wet_left = F32.zero) /\
   (F32.ltb F32.one (ctrl_wet_left p) = true -> wet_left = F32.one) /\
   (F32.leb F32.zero (ctrl_wet_left p) = true ->
    F32.leb (ctrl_wet_left p) F32.one = true ->
    wet_left = ctrl_wet_left p)) /\
  ((F32.ltb (ctrl_wet_right p) F32.zero = true -> wet_right = F32.zero) /\
   (F32.ltb F32.one (ctrl_wet_right p) = true -> wet_right = F32.one) /\
   (F32.leb F32.zero (ctrl_wet_right p) = true ->
    F32.leb (ctrl_wet_right p) F32.one = true ->
    wet_right = ctrl_wet_right p)) /\
  ctrl_wet_left p' = ctrl_wet_left p /\
  ctrl_wet_right p' = ctrl_wet_right p /\
  s' = set_combs s1 (combs s') /\
  exists mixed,
    bank_outs (ctrl_gain_input p) (damp1 s1) (damp2 s1)
              (scaled_feedback s1) (audio_input p) n 0 (combs s) =
      Some (mixed, combs s') /\
    length mixed = n /\
    forall i m, mixed !! i = Some m ->
      audio_output1 p' !! i =
        mixed_cell add (run_adding_gain s) wet_left
                   (audio_output1 p !! i) m /\
      audio_output2 p' !! i =
        mixed_cell add (run_adding_gain s) wet_right
                   (audio_output2 p !! i) m.
Proof.
  intros Hrun s1 wet_left wet_right.
  split; [|split].
  - unfold wet_left.
    auto using clamp_wet_below, clamp_wet_above, clamp_wet_inside.
  - unfold wet_right.
    auto using clamp_wet_below, clamp_wet_above, clamp_wet_inside.
  - revert Hrun. unfold symp_run_effect. fold s1 wet_left wet_right.
    destruct (F32.INT_MAX <? Z.of_nat n); [discriminate|].
    destruct (run_samples _ _ _ _ _ _ _ _ _ _ _ _ _) as [[cs ob]|] eqn:Hrun;
      [simpl|discriminate].
    intros [= <- <-]. simpl. repeat split.
    unfold s1 in Hrun at 4. rewrite refresh_keeps_combs in Hrun.
    destruct (run_samples_left _ _ _ _ _ _ _ _ _ _ _ _ _ _ _ Hrun)
      as (mixed & Hbank & Hlen & _ & _ & Hleft & _).
    destruct (run_samples_right _ _ _ _ _ _ _ _ _ _ _ _ _ _ _ Hrun)
      as (mixed' & Hbank' & _ & _ & _ & Hright & _).
    assert (mixed' = mixed) as -> by congruence.
    exists mixed. repeat split; auto.
    + by apply (Hleft i m).
    + by apply (Hright i m).
Qed.

Lemma wet_gains_clamped_witness :
  exists s' p',
    symp_run_effect demo_ports demo_state 4 false = Some (s', p') /\
    clamp_wet (ctrl_wet_left demo_ports) = F32.zero /\
    clamp_wet (ctrl_wet_right demo_ports) = F32.one /\
    ctrl_wet_left p' = F32.of_Z (-1) /\
    ctrl_wet_right p' = F32.of_Z 2 /\
    exists mixed,
      bank_outs F32.one F32.zero F32.one
                (F32.add FEEDBACK_OFFSET
                   (F32.mul (F32.literal 1 2) FEEDBACK_RANGE))
                (impulse 3) 4 0 [new_comb 2] = Some (mixed, combs s') /\
      length mixed = 4%nat /\
      forall i m, mixed !! i = Some m ->
        audio_output1 p' !! i = Some (F32.mul m F32.zero) /\
        audio_output2 p' !! i = Some (F32.mul m F32.one).
Proof.
  destruct (symp_run_effect demo_ports demo_state 4 false)
    as [[s' p']|] eqn:Hrun; [|discriminate Hrun].
  exists s', p'. split; [reflexivity|].
  destruct (wet_gains_clamped demo_ports p' demo_state s' 4 false Hrun)
    as ((Hl & _) & (_ & Hr & _) & Hpl & Hpr & _ & Hout).
  split; [apply Hl; reflexivity|].
  split; [apply Hr; reflexivity|].
  split; [exact Hpl|]. split; [exact Hpr|]. exact Hout.
Defined.

Lemma refresh_same (p1 p2 : ports) (s1 s2 : symp) :
  same_effect_state s1 s2 -> same_block p1 p2 ->
  same_effect_state (refresh_feedback p1 (refresh_damping p1 s1))
                    (refresh_feedback p2 (refresh_damping p2 s2)).
Proof.
  unfold same_effect_state, same_block.
  intros (Hc & Hd & Hd1 & Hd2 & Hf & Hsf & Hg)
         (Hpf & Hpd & _).
  unfold refresh_feedback, refresh_damping.
  rewrite Hpf, Hpd, Hd.
  destruct (negb (F32.eqb (ctrl_damping p2) (damping s2))); simpl;
    rewrite Hf;
    destruct (negb (F32.eqb (ctrl_feedback p2) (feedback s2))); simpl;
    repeat split; congruence.
Qed.

Lemma same_effect_state_set_combs (s1 s2 : symp) (cs : list comb) :
  same_effect_state s1 s2 ->
  same_effect_state (set_combs s1 cs) (set_combs s2 cs).
Proof.
  unfold same_effect_state. simpl. intros (_ & H). by split.
Qed.

(** C10.  Two calls of [symp_run_effect] in the same mode and for the same
    number of samples, from effect states that agree on the combs (buffers,
    indices and stores), the cached damping and feedback coefficients and
    the adding gain, with equal controls, input blocks and prior output
    contents, either are both undefined or both return, with equal output
    buffers and final states that agree in the same way. *)
Theorem run_effect_deterministic (p1 p2 : ports) (s1 s2 : symp) (n : nat)
    (add : bool) :
  same_effect_state s1 s2 ->
  same_block p1 p2 ->
  match symp_run_effect p1 s1 n add, symp_run_effect p2 s2 n add with
  | Some (s1', p1'), Some (s2', p2') =>
      same_effect_state s1' s2' /\
      audio_output1 p1' = audio_output1 p2' /\
      audio_output2 p1' = audio_output2 p2'
  | None, None => True
  | _, _ => False
  end.
Proof.
  intros Hs Hp.
  pose proof (refresh_same p1 p2 s1 s2 Hs Hp) as Hr.
  unfold symp_run_effect.
  destruct Hs as (_ & _ & _ & _ & _ & _ & Hg).
  destruct Hp as (_ & _ & Hgi & Hwl & Hwr & Hin & Ho1 & Ho2).
  destruct Hr as (Hc & Hd & Hd1 & Hd2 & Hf & Hsf & Hg').
  rewrite Hg, Hgi, Hwl, Hwr, Hin, Ho1, Ho2, Hc, Hd1, Hd2, Hsf.
  destruct (F32.INT_MAX <? Z.of_nat n); [done|].
  destruct (run_samples _ _ _ _ _ _ _ _ _ _ _ _ _) as [[cs ob]|];
    simpl; [|done].
  split; [|done].
  apply same_effect_state_set_combs. repeat split; assumption.
Qed.

Lemma run_effect_deterministic_witness :
  same_effect_state demo_state (set_sample_rate demo_state 44100) /\
  same_block demo_ports
    (example_ports [12000; 330] (F32.literal 1 2) (F32.of_Z (-1))
                   (F32.of_Z 2) (impulse 3) (replicate 4 F32.one)) /\
  match symp_run_effect demo_ports demo_state 4 true,
        symp_run_effect
          (example_ports [12000; 330] (F32.literal 1 2) (F32.of_Z (-1))
                         (F32.of_Z 2) (impulse 3) (replicate 4 F32.one))
          (set_sample_rate demo_state 44100) 4 true with
  | Some (s1', p1'), Some (s2', p2') =>
      same_effect_state s1' s2' /\
      audio_output1 p1' = audio_output1 p2' /\
      audio_output2 p1' = audio_output2 p2'
  | None, None => True
  | _, _ => False
  end.
Proof.
  assert (same_effect_state demo_state (set_sample_rate demo_state 44100))
    as Hs by (repeat split).
  assert (same_block demo_ports
            (example_ports [12000; 330] (F32.literal 1 2) (F32.of_Z (-1))
               (F32.of_Z 2) (impulse 3) (replicate 4 F32.one)))
    as Hp by (repeat split).
  split; [exact Hs|]. split; [exact Hp|].
  exact (run_effect_deterministic _ _ _ _ 4 true Hs Hp).
Defined.

(** ** Building the bank *)

Lemma set_combs_id (s : symp) : set_combs s (combs s) = s.
Proof. by destruct s. Qed.

Lemma comb_size_not_nan (rate : Z) (t : float) :
  is_Some (comb_size rate t) -> F32.is_nan t = false.
Proof.
  unfold comb_size. destruct t; try reflexivity.
  intros [sz Hsz]. by destruct (F32.of_Z rate).
Qed.

Lemma inactive_zero (k : nat) :
  List.filter active (replicate k F32.zero) = [].
Proof. induction k as [|k IH]; [reflexivity|exact IH]. Qed.

Lemma tunings_defined_padding (rate : Z) (ts : list float) (k : nat) :
  tunings_defined rate ts ->
  tunings_defined rate (ts ++ replicate k F32.zero).
Proof.
  intros Hts. apply Forall_app. split; [exact Hts|].
  apply Forall_forall. intros t Ht%elem_of_replicate. by destruct Ht as [-> _].
Qed.

Section Setup.

Variables (o : malloc_oracle) (p : ports).
Hypothesis o_succeeds : forall n, o n = true.

(** When every [malloc] succeeds, the loop over the slots holding [vs]
    appends one new comb per active slot, in slot order, and returns 1. *)
Lemma setup_combs_loop_builds (vs : list float) :
  forall (i n : nat) (s : symp),
    (forall j t, vs !! j = Some t -> ctrl_tunings p !! (i + j)%nat = Some t) ->
    tunings_defined (sample_rate s) vs ->
    (num_combs s + length (List.filter active vs) <= COMB_COUNT)%nat ->
    setup_combs_loop o p (seq i (length vs)) n s =
    Some (1, set_combs s (combs s ++ built_combs (sample_rate s) vs)).
Proof.
  unfold built_combs.
  induction vs as [|t vs IH]; intros i n s Hports Hdef Hroom.
  - simpl. by rewrite app_nil_r, set_combs_id.
  - apply Forall_cons in Hdef as [Hsize Hdef].
    simpl seq. cbn [setup_combs_loop].
    pose proof (Hports 0%nat t eq_refl) as H0.
    rewrite Nat.add_0_r in H0. rewrite H0. simpl mbind.
    assert (forall j t', vs !! j = Some t' ->
              ctrl_tunings p !! (S i + j)%nat = Some t') as Hports'.
    { intros j t' Hj. replace (S i + j)%nat with (i + S j)%nat by lia.
      by apply Hports. }
    simpl List.filter in *.
    destruct (F32.leb t F32.zero) eqn:Hle.
    + apply ltb_leb_false in Hle. fold (active t) in Hle. rewrite Hle in *.
      by apply IH.
    + destruct (Hsize eq_refl) as [sz Hszt].
      pose proof (leb_zero_ltb t (comb_size_not_nan _ _ (Hsize eq_refl)))
        as Hact.
      rewrite Hle in Hact. apply (f_equal negb) in Hact.
      rewrite negb_involutive in Hact. simpl in Hact.
      fold (active t) in Hact. rewrite <- Hact in *.
      rewrite Hszt. simpl mbind. rewrite !o_succeeds. simpl negb. cbn iota.
      simpl length in Hroom.
      destruct (decide (num_combs s < COMB_COUNT)%nat) as [_|?]; [|lia].
      rewrite IH; simpl sample_rate; auto.
      * simpl combs. rewrite <- app_assoc. simpl.
        unfold delay_length. by rewrite Hszt.
      * unfold num_combs in *. simpl. rewrite length_app. simpl. lia.
Qed.

Lemma setup_combs_builds (s : symp) :
  length (ctrl_tunings p) = COMB_COUNT ->
  tunings_defined (sample_rate s) (ctrl_tunings p) ->
  (num_combs s + length (List.filter active (ctrl_tunings p))
   <= COMB_COUNT)%nat ->
  symp_setup_combs o p s =
  Some (1, set_combs s
             (combs s ++ built_combs (sample_rate s) (ctrl_tunings p))).
Proof.
  intros Hlen Hdef Hroom. unfold symp_setup_combs. rewrite <- Hlen.
  by apply setup_combs_loop_builds.
Qed.

End Setup.

(** C8.  Starting from an empty bank, with every allocation succeeding and
    every conversion to [int] defined, [symp_setup_combs] on a tuning list
    [ts] of at most eleven values (the remaining slots inactive) returns 1
    and leaves a bank of exactly as many combs as [ts] has values above 0:
    one freshly zeroed comb per such value, in slot order; a value [<= 0] is
    not above 0 and contributes nothing. *)
Theorem setup_combs_builds_active_filters (o : malloc_oracle) (p : ports)
    (s : symp) (ts : list float) :
  (forall n, o n = true) ->
  combs s = [] ->
  (length ts <= COMB_COUNT)%nat ->
  ctrl_tunings p = ts ++ replicate (COMB_COUNT - length ts) F32.zero ->
  tunings_defined (sample_rate s) ts ->
  exists s',
    symp_setup_combs o p s = Some (1, s') /\
    combs s' =
      (fun t => new_comb (delay_length (sample_rate s) t)) <$>
        List.filter (fun t => F32.ltb F32.zero t) ts /\
    num_combs s' = length (List.filter (fun t => F32.ltb F32.zero t) ts) /\
    (forall t, F32.leb t F32.zero = true -> F32.ltb F32.zero t = false).
Proof.
  intros Ho Hempty Hlen Hports Hdef.
  eexists. split; [|split; [|split]].
  - apply (setup_combs_builds o p Ho s).
    + rewrite Hports, length_app, length_replicate. lia.
    + rewrite Hports. by apply tunings_defined_padding.
    + unfold num_combs. rewrite Hempty, Hports. simpl.
      rewrite List.filter_app, inactive_zero, app_nil_r.
      etrans; [apply List.filter_length_le|exact Hlen].
  - simpl. rewrite Hempty, Hports. simpl. unfold built_combs.
    by rewrite List.filter_app, inactive_zero, app_nil_r.
  - unfold num_combs. simpl. rewrite Hempty, Hports. simpl.
    unfold built_combs.
    by rewrite List.filter_app, inactive_zero, app_nil_r, length_fmap.
  - intros t. apply ltb_leb_false.
Qed.

Lemma demo_tunings_defined : tunings_defined 48000 demo_tunings.
Proof.
  unfold tunings_defined, demo_tunings. cbn [fmap list_fmap].
  repeat (apply Forall_cons; split); try (by apply Forall_nil);
    intros Hle; try discriminate Hle; by eexists.
Defined.

Lemma setup_combs_builds_active_filters_witness :
  exists s',
    symp_setup_combs all_succeed demo_tuning_ports fresh_state =
      Some (1, s') /\
    combs s' = [new_comb 109; new_comb 218] /\
    num_combs s' = 2%nat.
Proof.
  destruct (setup_combs_builds_active_filters all_succeed demo_tuning_ports
              fresh_state demo_tunings
              (fun _ => eq_refl) eq_refl
              ltac:(vm_compute; lia) eq_refl demo_tunings_defined)
    as (s' & Hrun & Hcombs & Hnum & _).
  exists s'. split; [exact Hrun|]. split; [exact Hcombs|exact Hnum].
Defined.

(** C9.  Activation appends: from any state, with every allocation
    succeeding, every conversion defined and room left in the array of
    eleven combs, [symp_activate] returns a state whose combs are the former
    ones, unchanged and in front, followed by one new comb per active slot;
    their number is the former number plus the number of active slots, so
    activating twice in a row accumulates combs. *)
Theorem activate_appends (o : malloc_oracle) (p : ports) (s : symp) :
  (forall n, o n = true) ->
  length (ctrl_tunings p) = COMB_COUNT ->
  tunings_defined (sample_rate s) (ctrl_tunings p) ->
  (num_combs s + length (List.filter active (ctrl_tunings p))
   <= COMB_COUNT)%nat ->
  exists s',
    symp_activate o p s = Some (s', []) /\
    combs s' = combs s ++ built_combs (sample_rate s) (ctrl_tunings p) /\
    num_combs s' =
      (num_combs s + length (List.filter active (ctrl_tunings p)))%nat /\
    take (num_combs s) (combs s') = combs s.
Proof.
  intros Ho Hlen Hdef Hroom.
  eexists. split; [|split; [|split]].
  - unfold symp_activate.
    rewrite (setup_combs_builds o p Ho s Hlen Hdef Hroom). reflexivity.
  - reflexivity.
  - unfold num_combs, built_combs. simpl.
    by rewrite length_app, length_fmap.
  - unfold num_combs. simpl. by rewrite take_app_length.
Qed.

Lemma activate_appends_witness :
  exists s',
    symp_activate all_succeed demo_tuning_ports two_comb_state =
      Some (s', []) /\
    combs s' = [new_comb 109; new_comb 218; new_comb 109; new_comb 218] /\
    num_combs s' = 4%nat.
Proof.
  destruct (activate_appends all_succeed demo_tuning_ports two_comb_state
              (fun _ => eq_refl) eq_refl
              (tunings_defined_padding 48000 demo_tunings 8
                 demo_tunings_defined)
              ltac:(vm_compute; lia))
    as (s' & Hrun & Hcombs & Hnum & _).
  exists s'. split; [exact Hrun|]. split; [exact Hcombs|exact Hnum].
Defined.

(** ** The model on the scenario of the specification *)

(** The scenario of the specification: 48000 Hz, one string at 440 Hz,
    feedback 0.5, no damping, a unit impulse in Replace mode. *)
Lemma end_to_end_scenario :
  (s0 ← symp_instantiate all_succeed 48000;
   '(s1, _) ← symp_activate all_succeed
                (example_ports [440] (F32.literal 1 2) F32.one F32.zero
                               (impulse 500) (replicate 501 F32.one)) s0;
   '(_, p') ← symp_run (example_ports [440] (F32.literal 1 2) F32.one
                          F32.zero (impulse 500) (replicate 501 F32.one))
                       s1 501;
   Some (size <$> combs s1,
         audio_output1 p' !! 0%nat, audio_output1 p' !! 109%nat,
         audio_output1 p' !! 218%nat, audio_output2 p' !! 109%nat)) =
  Some ([109], Some F32.zero, Some F32.one,
        Some (F32.add FEEDBACK_OFFSET
                (F32.mul (F32.literal 1 2) FEEDBACK_RANGE)),
        Some F32.zero).
Proof. vm_compute. reflexivity. Qed.

Lemma fresh_state_reached :
  symp_instantiate all_succeed 48000 = Some fresh_state.
Proof. reflexivity. Qed.

Lemma two_comb_state_reached :
  symp_activate all_succeed two_string_ports fresh_state =
  Some (two_comb_state, []).
Proof. vm_compute. reflexivity. Qed.

Lemma demo_state_reached :
  (s0 ← symp_instantiate all_succeed 48000;
   '(s1, _) ← symp_activate all_succeed demo_ports s0;
   Some (symp_set_run_adding_gain s1 F32.one)) = Some demo_state.
Proof. reflexivity. Qed.

(** ** The feedback cache *)

(** C's [==] on floats: equal values, or two zeros of any sign. *)
Lemma eqb_eq_or_zeros (x y : float) :
  F32.eqb x y = true ->
  x = y \/ exists sx sy, x = S754_zero sx /\ y = S754_zero sy.
Proof.
  destruct x as [sx|sx| |sx mx ex], y as [sy|sy| |sy my ey];
    try discriminate; try (by destruct sx); try (by destruct sy).
  - right. by exists sx, sy.
  - destruct sx, sy; try discriminate; by left.
  - unfold F32.eqb, SFeqb, SFcompare.
    destruct sx, sy; try discriminate;
      destruct (ex ?= ey) eqn:He; try discriminate;
      destruct (Pos.compare_cont Eq mx my) eqn:Hm; try discriminate;
      intros _; left;
      apply Z.compare_eq in He; apply Pos.compare_eq in Hm; congruence.
Qed.

Lemma scaled_zero_sign (sx sy : bool) :
  F32.add FEEDBACK_OFFSET (F32.mul (S754_zero sx) FEEDBACK_RANGE) =
  F32.add FEEDBACK_OFFSET (F32.mul (S754_zero sy) FEEDBACK_RANGE).
Proof. by destruct sx, sy. Qed.

(** Once the cached pair is consistent, the refresh keeps the scaled
    feedback equal to what a recomputation from the control gives.  The
    state left by [symp_instantiate] is not consistent: it caches the raw
    value 0 with the scaled value 0. *)
Lemma refresh_feedback_consistent (p : ports) (s : symp) :
  scaled_feedback s =
    F32.add FEEDBACK_OFFSET (F32.mul (feedback s) FEEDBACK_RANGE) ->
  scaled_feedback (refresh_feedback p s) =
    F32.add FEEDBACK_OFFSET (F32.mul (ctrl_feedback p) FEEDBACK_RANGE).
Proof.
  intros Hs. unfold refresh_feedback.
  destruct (F32.eqb (ctrl_feedback p) (feedback s)) eqn:Heq; simpl;
    [|reflexivity].
  rewrite Hs.
  destruct (eqb_eq_or_zeros _ _ Heq) as [->|(sx & sy & -> & ->)];
    [reflexivity|apply scaled_zero_sign].
Qed.

(** ** Divergences from the specification *)

(** C2.  A freshly instantiated effect caches the raw feedback 0 together
    with the scaled feedback 0.  A first block processed with the feedback
    control at 0 is therefore not refreshed: the coefficient applied is 0,
    not [FEEDBACK_OFFSET + 0 * FEEDBACK_RANGE = FEEDBACK_OFFSET], and the
    second return of the impulse (sample 4 of a comb of length 2) is 0.  The
    same block processed after a call that saw another feedback value is
    refreshed, and sample 4 is [FEEDBACK_OFFSET]. *)
Theorem fresh_effect_zero_feedback_unscaled :
  (s0 ← symp_instantiate all_succeed 48000;
   '(s1, _) ← symp_activate all_succeed zero_feedback_ports s0;
   '(s2, p2) ← symp_run_effect zero_feedback_ports s1 5 false;
   Some (scaled_feedback s2, audio_output1 p2)) =
  Some (F32.zero, [F32.zero; F32.zero; F32.one; F32.zero; F32.zero]) /\
  F32.add FEEDBACK_OFFSET
          (F32.mul (ctrl_feedback zero_feedback_ports) FEEDBACK_RANGE) =
  FEEDBACK_OFFSET /\
  FEEDBACK_OFFSET <> F32.zero /\
  (s0 ← symp_instantiate all_succeed 48000;
   '(s1, _) ← symp_activate all_succeed zero_feedback_ports s0;
   '(s1', _) ← symp_run_effect half_feedback_ports s1 0 false;
   '(s2, p2) ← symp_run_effect zero_feedback_ports s1' 5 false;
   Some (scaled_feedback s2, audio_output1 p2)) =
  Some (FEEDBACK_OFFSET,
        [F32.zero; F32.zero; F32.one; F32.zero; FEEDBACK_OFFSET]).
Proof.
  split; [|split; [|split]].
  - vm_compute. reflexivity.
  - vm_compute. reflexivity.
  - discriminate.
  - vm_compute. reflexivity.
Qed.

(** C3.  With two strings and the fourth [malloc] of the activation (the
    buffer of the second comb) failing, [symp_setup_combs] returns -1 but
    leaves both combs in the bank, the first complete and the second with a
    NULL buffer; [symp_activate] tests the result with [!], which -1 does
    not satisfy, prints nothing and returns nothing to its caller; the next
    [symp_run_effect] reads through the NULL buffer. *)
Theorem failed_allocation_leaves_partial_bank :
  exists s0,
    symp_instantiate all_succeed 48000 = Some s0 /\
    symp_setup_combs (fails_at 3) two_string_ports s0 =
      Some (-1, set_combs s0 [new_comb 109; zeroed_comb]) /\
    symp_activate (fails_at 3) two_string_ports s0 =
      Some (set_combs s0 [new_comb 109; zeroed_comb], []) /\
    buffer zeroed_comb = None /\
    symp_run_effect two_string_ports
      (set_combs s0 [new_comb 109; zeroed_comb]) 1 false = None.
Proof.
  eexists. split; [reflexivity|].
  repeat split; vm_compute; reflexivity.
Qed.

(** C4.  At 44100 Hz a string tuned to 48000 Hz gets the delay length
    [(int)(44100.0f / 48000.0f) = 0]: with [malloc(0)] returning a block,
    [symp_activate] puts a comb of size 0 with an empty buffer in the bank,
    and the next [symp_run_effect] reads [buffer[0]] outside of it. *)
Theorem tuning_above_rate_builds_empty_comb :
  exists s0,
    symp_instantiate all_succeed 44100 = Some s0 /\
    comb_size 44100 (F32.of_Z 48000) = Some 0 /\
    symp_activate all_succeed high_tuning_ports s0 =
      Some (set_combs s0 [new_comb 0], []) /\
    size (new_comb 0) = 0 /\
    buffer (new_comb 0) = Some [] /\
    symp_run_effect high_tuning_ports (set_combs s0 [new_comb 0]) 1 false =
      None.
Proof.
  eexists. split; [reflexivity|].
  repeat split; vm_compute; reflexivity.
Qed.

(** ** What a block leaves alone *)

Lemma comb_advance_shape (x d1 d2 fb tmp : float) (c c' : comb) :
  comb_advance x d1 d2 fb c = Some (tmp, c') ->
  size c' = size c /\ length <$> buffer c' = length <$> buffer c.
Proof.
  unfold comb_advance.
  destruct (buffer c) as [b|]; [simpl|discriminate].
  destruct (idx c <? 0); [discriminate|].
  destruct (b !! Z.to_nat (idx c)); [simpl|discriminate].
  intros [= _ <-]. simpl. by rewrite length_insert.
Qed.

Lemma run_combs_shape (x d1 d2 fb : float) (cs : list comb) :
  forall (out out' : float) (cs' : list comb),
    run_combs x d1 d2 fb cs out = Some (out', cs') ->
    size <$> cs' = size <$> cs /\
    (fun c => length <$> buffer c) <$> cs' =
      (fun c => length <$> buffer c) <$> cs.
Proof.
  induction cs as [|c cs IH]; intros out out' cs'; simpl.
  - by intros [= _ <-].
  - destruct (comb_advance x d1 d2 fb c) as [[tmp c1]|] eqn:Hc;
      [simpl|discriminate].
    destruct (run_combs x d1 d2 fb cs (F32.add out tmp)) as [[o cs1]|] eqn:Hcs;
      [simpl|discriminate].
    intros [= _ <-]. rewrite !fmap_cons.
    destruct (comb_advance_shape _ _ _ _ _ _ _ Hc) as [-> ->].
    destruct (IH _ _ _ Hcs) as [-> ->]. done.
Qed.

Lemma run_samples_shape (add : bool)
    (adding_gain input_gain wl wr d1 d2 fb : float) (input : list float)
    (n : nat) :
  forall (i : nat) (cs cs' : list comb) (ob ob' : outbufs),
    run_samples add adding_gain input_gain wl wr d1 d2 fb input n i cs ob =
      Some (cs', ob') ->
    size <$> cs' = size <$> cs /\
    (fun c => length <$> buffer c) <$> cs' =
      (fun c => length <$> buffer c) <$> cs.
Proof.
  induction n as [|n IH]; intros i cs cs' ob ob'; simpl.
  - by intros [= <- _].
  - destruct (input !! i) as [a|]; [simpl|discriminate].
    destruct (run_combs _ _ _ _ _ _) as [[out cs1]|] eqn:Hcs;
      [simpl|discriminate].
    destruct (mix_sample _ _ _ _ _ _) as [ob1|]; [simpl|discriminate].
    intros Hrun. destruct (IH _ _ _ _ _ Hrun) as [-> ->].
    exact (run_combs_shape _ _ _ _ _ _ _ _ Hcs).
Qed.

(** The left channel is not written at or after the position the pointer
    reaches when every sample of the block advances it. *)
Lemma run_samples_left_above (add : bool)
    (adding_gain input_gain wl wr d1 d2 fb : float) (input : list float)
    (n : nat) :
  forall (i : nat) (cs cs' : list comb) (ob ob' : outbufs),
    run_samples add adding_gain input_gain wl wr d1 d2 fb input n i cs ob =
      Some (cs', ob') ->
    forall q, (pos1 ob + n <= q)%nat -> out1 ob' !! q = out1 ob !! q.
Proof.
  induction n as [|n IH]; intros i cs cs' ob ob'; simpl.
  - by intros [= _ <-].
  - destruct (input !! i) as [a|]; [simpl|discriminate].
    destruct (run_combs _ _ _ _ _ _) as [[out cs1]|]; [simpl|discriminate].
    destruct (mix_sample _ _ _ _ _ _) as [ob1|] eqn:Hmix;
      [simpl|discriminate].
    intros Hrun q Hq.
    apply mix_sample_left, mix_channel_spec in Hmix
      as (_ & Hother & _ & Hpos).
    rewrite (IH _ _ _ _ _ Hrun q) by (destruct Hpos as [->|[-> _]]; lia).
    apply Hother. lia.
Qed.

Lemma run_samples_right_above (add : bool)
    (adding_gain input_gain wl wr d1 d2 fb : float) (input : list float)
    (n i : nat) (cs cs' : list comb) (ob ob' : outbufs) :
  run_samples add adding_gain input_gain wl wr d1 d2 fb input n i cs ob =
    Some (cs', ob') ->
  forall q, (pos2 ob + n <= q)%nat -> out2 ob' !! q = out2 ob !! q.
Proof.
  intros Hrun.
  apply (run_samples_left_above add adding_gain input_gain wr wl d1 d2 fb
           input n i cs cs' (swap_bufs ob) (swap_bufs ob')).
  by rewrite run_samples_swap, Hrun.
Qed.

(** X2.  A block that returns changes nothing of the effect but the cached
    coefficients and the contents of the combs: the number of combs, the
    size and the buffer length of each, the sample rate and the adding gain
    are as before; and it changes nothing of the host memory but the two
    output buffers: the tuning and scalar controls and the input block are
    as before. *)
Theorem run_effect_frame (p p' : ports) (s s' : symp) (n : nat) (add : bool) :
  symp_run_effect p s n add = Some (s', p') ->
  (num_combs s' = num_combs s /\
   size <$> combs s' = size <$> combs s /\
   (fun c => length <$> buffer c) <$> combs s' =
     (fun c => length <$> buffer c) <$> combs s /\
   sample_rate s' = sample_rate s /\
   run_adding_gain s' = run_adding_gain s) /\
  (ctrl_tunings p' = ctrl_tunings p /\
   ctrl_feedback p' = ctrl_feedback p /\
   ctrl_damping p' = ctrl_damping p /\
   ctrl_gain_input p' = ctrl_gain_input p /\
   ctrl_wet_left p' = ctrl_wet_left p /\
   ctrl_wet_right p' = ctrl_wet_right p /\
   audio_input p' = audio_input p).
Proof.
  unfold symp_run_effect.
  destruct (F32.INT_MAX <? Z.of_nat n); [discriminate|].
  destruct (run_samples _ _ _ _ _ _ _ _ _ _ _ _ _) as [[cs ob]|] eqn:Hrun;
    [simpl|discriminate].
  intros [= <- <-]. rewrite refresh_keeps_combs in Hrun.
  destruct (run_samples_shape _ _ _ _ _ _ _ _ _ _ _ _ _ _ _ Hrun)
    as [Hsize Hlen].
  split; [|done]. unfold num_combs. simpl.
  split; [|split; [exact Hsize|split; [exact Hlen|]]].
  - by rewrite <- (length_fmap size cs), Hsize, length_fmap.
  - unfold refresh_feedback, refresh_damping.
    by repeat (destruct (negb _); simpl).
Qed.

Lemma run_effect_frame_witness :
  exists s' p',
    symp_run_effect demo_ports demo_state 4 true = Some (s', p') /\
    size <$> combs s' = [2] /\
    sample_rate s' = 48000 /\
    audio_input p' = impulse 3.
Proof.
  destruct (symp_run_effect demo_ports demo_state 4 true)
    as [[s' p']|] eqn:Hrun; [|discriminate Hrun].
  exists s', p'. split; [reflexivity|].
  destruct (run_effect_frame demo_ports p' demo_state s' 4 true Hrun)
    as ((_ & Hsize & _ & Hrate & _) & (_ & _ & _ & _ & _ & _ & Hin)).
  split; [exact Hsize|]. split; [exact Hrate|exact Hin].
Defined.

(** X3.  A block of [n] samples that returns keeps the length of both output
    buffers and leaves every output sample at an index [>= n] as it was, in
    both modes. *)
Theorem run_effect_output_frame (p p' : ports) (s s' : symp) (n : nat)
    (add : bool) :
  symp_run_effect p s n add = Some (s', p') ->
  length (audio_output1 p') = length (audio_output1 p) /\
  length (audio_output2 p') = length (audio_output2 p) /\
  forall i, (n <= i)%nat ->
    audio_output1 p' !! i = audio_output1 p !! i /\
    audio_output2 p' !! i = audio_output2 p !! i.
Proof.
  unfold symp_run_effect.
  destruct (F32.INT_MAX <? Z.of_nat n); [discriminate|].
  destruct (run_samples _ _ _ _ _ _ _ _ _ _ _ _ _) as [[cs ob]|] eqn:Hrun;
    [simpl|discriminate].
  intros [= <- <-]. simpl.
  destruct (run_samples_left _ _ _ _ _ _ _ _ _ _ _ _ _ _ _ Hrun)
    as (_ & _ & _ & Hl1 & _).
  destruct (run_samples_right _ _ _ _ _ _ _ _ _ _ _ _ _ _ _ Hrun)
    as (_ & _ & _ & Hl2 & _).
  split; [exact Hl1|]. split; [exact Hl2|].
  intros i Hi. split.
  - by apply (run_samples_left_above _ _ _ _ _ _ _ _ _ _ _ _ _ _ _ Hrun).
  - by apply (run_samples_right_above _ _ _ _ _ _ _ _ _ _ _ _ _ _ _ Hrun).
Qed.

Lemma run_effect_output_frame_witness :
  exists s' p',
    symp_run_effect demo_ports demo_state 2 false = Some (s', p') /\
    length (audio_output1 p') = 4%nat /\
    audio_output1 p' !! 2%nat = Some F32.one /\
    audio_output2 p' !! 3%nat = Some F32.one.
Proof.
  destruct (symp_run_effect demo_ports demo_state 2 false)
    as [[s' p']|] eqn:Hrun; [|discriminate Hrun].
  exists s', p'. split; [reflexivity|].
  destruct (run_effect_output_frame demo_ports p' demo_state s' 2 false Hrun)
    as (Hl1 & _ & Habove).
  split; [exact Hl1|].
  split; [exact (proj1 (Habove 2%nat ltac:(lia)))
         |exact (proj2 (Habove 3%nat ltac:(lia)))].
Defined.

(** ** Activation under any allocator *)

(** Whatever [malloc] does, the loop only appends to the bank: complete new
    combs, then at most one comb left without a buffer when it gives up. *)
Lemma setup_combs_loop_appends (o : malloc_oracle) (p : ports)
    (ixs : list nat) :
  forall (n : nat) (s s' : symp) (r : Z),
    setup_combs_loop o p ixs n s = Some (r, s') ->
    exists full partial,
      s' = set_combs s (combs s ++ full ++ partial) /\
      Forall (fun c => exists sz, c = new_comb sz) full /\
      (r = 1 /\ partial = [] \/
       r = -1 /\ (partial = [] \/ partial = [zeroed_comb])) /\
      (length full + length partial <= length ixs)%nat.
Proof.
  induction ixs as [|i ixs IH]; intros n s s' r; cbn [setup_combs_loop].
  - intros [= <- <-]. exists [], []. simpl.
    rewrite app_nil_r, set_combs_id. repeat split; auto.
  - destruct (ctrl_tunings p !! i) as [t|]; [simpl|discriminate].
    destruct (F32.leb t F32.zero).
    { intros (full & partial & -> & Hfull & Hr & Hlen)%IH.
      exists full, partial. repeat split; auto; simpl; lia. }
    destruct (comb_size (sample_rate s) t) as [sz|]; [simpl|discriminate].
    destruct (o n); simpl.
    2:{ intros [= <- <-]. exists [], []. simpl.
        rewrite app_nil_r, set_combs_id. repeat split; auto; simpl; lia. }
    destruct (decide (num_combs s < COMB_COUNT)%nat); [|discriminate].
    destruct (o (S n)); simpl.
    2:{ intros [= <- <-]. exists [], [zeroed_comb]. simpl.
        repeat split; auto; simpl; lia. }
    intros (full & partial & -> & Hfull & Hr & Hlen)%IH.
    exists (new_comb sz :: full), partial. simpl.
    rewrite <- !app_assoc. simpl. repeat split; auto; try lia.
    constructor; [by exists sz|exact Hfull].
Qed.

(** X4.  Whatever the allocator does, [symp_setup_combs] only appends to the
    bank and touches no other field of the effect.  It returns 1 or -1,
    never 0.  When it returns 1 every appended comb is complete (zero store,
    index 0, a zero-filled buffer of its size); when it returns -1 the
    appended combs are complete except possibly the last one, which then has
    a NULL buffer.  At most [COMB_COUNT] combs are appended. *)
Theorem setup_combs_appends (o : malloc_oracle) (p : ports) (s s' : symp)
    (r : Z) :
  symp_setup_combs o p s = Some (r, s') ->
  exists full partial,
    s' = set_combs s (combs s ++ full ++ partial) /\
    Forall (fun c => exists sz, c = new_comb sz) full /\
    (r = 1 /\ partial = [] \/
     r = -1 /\ (partial = [] \/ partial = [zeroed_comb])) /\
    (length full + length partial <= COMB_COUNT)%nat.
Proof.
  unfold symp_setup_combs.
  intros (full & partial & Hs & Hfull & Hr & Hlen)%setup_combs_loop_appends.
  exists full, partial. by rewrite length_seq in Hlen.
Qed.

Lemma setup_combs_appends_witness :
  exists (r : Z) (s' : symp) (full partial : list comb),
    symp_setup_combs (fails_at 3) two_string_ports fresh_state =
      Some (r, s') /\
    s' = set_combs fresh_state (combs fresh_state ++ full ++ partial) /\
    (r = 1 /\ partial = [] \/
     r = -1 /\ (partial = [] \/ partial = [zeroed_comb])) /\
    (length full + length partial <= COMB_COUNT)%nat.
Proof.
  destruct (symp_setup_combs (fails_at 3) two_string_ports fresh_state)
    as [[r s']|] eqn:Hrun; [|discriminate Hrun].
  destruct (setup_combs_appends _ _ _ _ _ Hrun)
    as (full & partial & Hs & _ & Hr & Hlen).
  exists r, s', full, partial. split; [reflexivity|].
  split; [exact Hs|]. split; [exact Hr|exact Hlen].
Defined.

(** X5.  [symp_activate] never prints its out-of-memory message, whatever the
    allocator does: the result it negates is 1 or -1, and it hands the state
    [symp_setup_combs] left on to the host as it is. *)
Theorem activate_never_reports (o : malloc_oracle) (p : ports) (s s' : symp)
    (printed : list string) :
  symp_activate o p s = Some (s', printed) ->
  printed = [] /\
  exists r, symp_setup_combs o p s = Some (r, s') /\ (r = 1 \/ r = -1).
Proof.
  unfold symp_activate.
  destruct (symp_setup_combs o p s) as [[r s1]|] eqn:Hsetup;
    [simpl|discriminate].
  intros [= <- <-].
  destruct (setup_combs_loop_appends _ _ _ _ _ _ _ Hsetup)
    as (_ & _ & _ & _ & [[-> _]|[-> _]] & _);
    (split; [reflexivity|eexists; split; [reflexivity|auto]]).
Qed.

Lemma activate_never_reports_witness :
  exists s' printed,
    symp_activate (fails_at 0) two_string_ports fresh_state =
      Some (s', printed) /\
    printed = [] /\
    symp_setup_combs (fails_at 0) two_string_ports fresh_state =
      Some (-1, s').
Proof.
  destruct (symp_activate (fails_at 0) two_string_ports fresh_state)
    as [[s' printed]|] eqn:Hact; [|discriminate Hact].
  exists s', printed. split; [reflexivity|].
  split; [exact (proj1 (activate_never_reports _ _ _ _ _ Hact))|].
  injection Hact as <- _. reflexivity.
Defined.

(** X6.  Deactivation followed by a successful activation rebuilds the bank:
    whatever combs the effect held (even a full bank), it then holds exactly
    one fresh comb per active tuning slot, in slot order, and every other
    field is as before. *)
Theorem deactivate_activate_rebuilds (o : malloc_oracle) (p : ports)
    (s : symp) :
  (forall n, o n = true) ->
  length (ctrl_tunings p) = COMB_COUNT ->
  tunings_defined (sample_rate s) (ctrl_tunings p) ->
  symp_activate o p (symp_deactivate s) =
  Some (set_combs s (built_combs (sample_rate s) (ctrl_tunings p)), []).
Proof.
  intros Ho Hlen Hdef. unfold symp_activate.
  rewrite (setup_combs_builds o p Ho (symp_deactivate s) Hlen Hdef).
  - reflexivity.
  - unfold num_combs. simpl. rewrite <- Hlen. apply List.filter_length_le.
Qed.

Lemma deactivate_activate_rebuilds_witness :
  symp_activate all_succeed demo_tuning_ports (symp_deactivate demo_state) =
  Some (set_combs demo_state
          (built_combs 48000 (ctrl_tunings demo_tuning_ports)), []) /\
  built_combs 48000 (ctrl_tunings demo_tuning_ports) =
    [new_comb 109; new_comb 218].
Proof.
  split; [|reflexivity].
  apply (deactivate_activate_rebuilds all_succeed demo_tuning_ports
           demo_state (fun _ => eq_refl) eq_refl
           (tunings_defined_padding 48000 demo_tunings 8
              demo_tunings_defined)).
Defined.

(** ** Invariants of the reachable states *)

Lemma refresh_damping_ok (p : ports) (s : symp) :
  damping_cache_ok s -> damping_cache_ok (refresh_damping p s).
Proof.
  unfold refresh_damping.
  by destruct (negb (F32.eqb (ctrl_damping p) (damping s))).
Qed.

Lemma refresh_feedback_ok (p : ports) (s : symp) :
  feedback_cache_ok s -> feedback_cache_ok (refresh_feedback p s).
Proof.
  unfold refresh_feedback.
  by destruct (negb (F32.eqb (ctrl_feedback p) (feedback s))).
Qed.

Lemma refresh_feedback_initial (p : ports) (s : symp) :
  feedback s = F32.zero /\ scaled_feedback s = F32.zero ->
  feedback_cache_ok (refresh_feedback p s) \/
  feedback (refresh_feedback p s) = F32.zero /\
  scaled_feedback (refresh_feedback p s) = F32.zero.
Proof.
  unfold refresh_feedback.
  destruct (negb (F32.eqb (ctrl_feedback p) (feedback s))); [by left|by right].
Qed.

Lemma reachable_invariants (rate : Z) (s : symp) :
  reachable rate s ->
  sample_rate s = rate /\
  damping_cache_ok s /\
  (feedback_cache_ok s \/
   feedback s = F32.zero /\ scaled_feedback s = F32.zero).
Proof.
  induction 1 as [o s Hinst|o p s s' printed _ IH Hact|s _ IH|s gain _ IH
                 |p p' s s' n add _ IH Hrun].
  - unfold symp_instantiate in Hinst. destruct (o 0%nat); [|discriminate].
    injection Hinst as <-. repeat split. by right.
  - unfold symp_activate in Hact.
    destruct (symp_setup_combs o p s) as [[r s1]|] eqn:Hsetup;
      [simpl in Hact|discriminate].
    injection Hact as <- _.
    destruct (setup_combs_loop_appends _ _ _ _ _ _ _ Hsetup)
      as (full & partial & -> & _).
    exact IH.
  - exact IH.
  - exact IH.
  - destruct IH as (Hrate & Hdamp & Hfb).
    unfold symp_run_effect in Hrun.
    destruct (F32.INT_MAX <? Z.of_nat n); [discriminate|].
    destruct (run_samples _ _ _ _ _ _ _ _ _ _ _ _ _) as [[cs ob]|];
      [simpl in Hrun|discriminate].
    injection Hrun as <- _.
    assert (forall t, sample_rate (set_combs t cs) = sample_rate t) as Hsr
      by reflexivity.
    split; [|split].
    + rewrite Hsr. unfold refresh_feedback, refresh_damping.
      by repeat (destruct (negb _); simpl).
    + apply (refresh_damping_ok p) in Hdamp.
      unfold damping_cache_ok in *. simpl.
      unfold refresh_feedback.
      by destruct (negb (F32.eqb (ctrl_feedback p) _)).
    + assert (feedback_cache_ok (refresh_damping p s) \/
              feedback (refresh_damping p s) = F32.zero /\
              scaled_feedback (refresh_damping p s) = F32.zero) as Hfb'.
      { unfold refresh_damping, feedback_cache_ok in *.
        by destruct (negb (F32.eqb (ctrl_damping p) (damping s))). }
      destruct Hfb' as [Hok|Hinit].
      * left. by apply (refresh_feedback_ok p) in Hok.
      * destruct (refresh_feedback_initial p _ Hinit) as [Hok|Hzero];
          [by left|by right].
Qed.

Lemma demo_state_reachable : reachable 48000 demo_state.
Proof.
  change demo_state
    with (symp_set_run_adding_gain (set_combs fresh_state [new_comb 2])
                                   F32.one).
  apply reach_set_run_adding_gain.
  apply (reach_activate 48000 all_succeed demo_ports fresh_state _ []).
  - by apply (reach_instantiate 48000 all_succeed).
  - reflexivity.
Defined.

(** X7.  In every state the host can reach, the cached damping coefficients
    are the ones computed from the cached raw damping:
    [damp1 = damping * DAMPING_RANGE] and [damp2 = 1 - damp1]; and the sample
    rate is the one given to [symp_instantiate]. *)
Theorem reachable_damping_cache (rate : Z) (s : symp) :
  reachable rate s ->
  damp1 s = F32.mul (damping s) DAMPING_RANGE /\
  damp2 s = F32.sub F32.one (damp1 s) /\
  sample_rate s = rate.
Proof.
  intros (Hrate & [Hd1 Hd2] & _)%reachable_invariants. done.
Qed.

Lemma reachable_damping_cache_witness :
  reachable 48000 demo_state /\
  damp1 demo_state = F32.mul (damping demo_state) DAMPING_RANGE /\
  damp2 demo_state = F32.sub F32.one (damp1 demo_state) /\
  sample_rate demo_state = 48000.
Proof.
  split; [exact demo_state_reachable|].
  exact (reachable_damping_cache 48000 demo_state demo_state_reachable).
Defined.

(** X8.  In every state the host can reach, the cached scaled feedback is
    [FEEDBACK_OFFSET + feedback * FEEDBACK_RANGE] for the cached raw
    feedback, unless the cache still holds the pair (0, 0) that
    [symp_instantiate] left. *)
Theorem reachable_feedback_cache (rate : Z) (s : symp) :
  reachable rate s ->
  scaled_feedback s =
    F32.add FEEDBACK_OFFSET (F32.mul (feedback s) FEEDBACK_RANGE) \/
  feedback s = F32.zero /\ scaled_feedback s = F32.zero.
Proof.
  intros (_ & _ & Hfb)%reachable_invariants. exact Hfb.
Qed.

Lemma reachable_feedback_cache_witness :
  exists s' p',
    symp_run_effect demo_ports demo_state 4 false = Some (s', p') /\
    reachable 48000 s' /\
    (scaled_feedback s' =
       F32.add FEEDBACK_OFFSET (F32.mul (feedback s') FEEDBACK_RANGE) \/
     feedback s' = F32.zero /\ scaled_feedback s' = F32.zero).
Proof.
  destruct (symp_run_effect demo_ports demo_state 4 false)
    as [[s' p']|] eqn:Hrun; [|discriminate Hrun].
  exists s', p'. split; [reflexivity|].
  assert (reachable 48000 s') as Hreach
    by exact (reach_run_effect 48000 _ _ _ _ _ _ demo_state_reachable Hrun).
  split; [exact Hreach|].
  exact (reachable_feedback_cache 48000 s' Hreach).
Defined.

(** ** The delay line *)

Lemma comb_feed_app (d1 d2 fb : float) (xs ys : list float) :
  forall c : comb,
    comb_feed d1 d2 fb c (xs ++ ys) =
    '(o1, c1) ← comb_feed d1 d2 fb c xs;
    '(o2, c2) ← comb_feed d1 d2 fb c1 ys;
    Some (o1 ++ o2, c2).
Proof.
  induction xs as [|x xs IH]; intros c; simpl.
  - by destruct (comb_feed d1 d2 fb c ys) as [[o2 c2]|].
  - destruct (comb_advance x d1 d2 fb c) as [[tmp c1]|]; [simpl|reflexivity].
    rewrite IH.
    destruct (comb_feed d1 d2 fb c1 xs) as [[o1 c2]|]; [simpl|reflexivity].
    by destruct (comb_feed d1 d2 fb c2 ys) as [[o2 c3]|].
Qed.

(** A fresh delay line of [L] samples of which the first [k] have been
    written still taps zeros until the index has gone round. *)
Lemma feed_fresh_prefix (d1 d2 fb : float) (L : nat) (xs : list float) :
  forall (pre : list float) (st : float) (k : nat),
    length pre = k ->
    (k + length xs <= L)%nat ->
    exists c',
      comb_feed d1 d2 fb
        (mk_comb st (Some (pre ++ replicate (L - k) F32.zero))
                 (Z.of_nat L) (Z.of_nat k)) xs =
      Some (replicate (length xs) F32.zero, c').
Proof.
  induction xs as [|x xs IH]; intros pre st k Hpre Hlen.
  - by eexists.
  - simpl in Hlen. cbn [comb_feed]. unfold comb_advance.
    cbn [buffer idx store size mbind option_bind].
    destruct (Z.ltb_spec (Z.of_nat k) 0) as [?|_]; [lia|].
    rewrite Nat2Z.id.
    rewrite lookup_app_r by lia.
    replace (k - length pre)%nat with 0%nat by lia.
    replace (L - k)%nat with (S (L - S k)) by lia.
    cbn [replicate lookup list_lookup mbind option_bind].
    set (st' := F32.add (F32.mul F32.zero d2) (F32.mul st d1)).
    set (w := F32.add x (F32.mul st' fb)).
    rewrite insert_app_r_alt by lia.
    replace (k - length pre)%nat with 0%nat by lia.
    cbn [insert list_insert].
    rewrite (cons_middle w pre), app_assoc.
    destruct xs as [|x' xs].
    + simpl. by eexists.
    + simpl in Hlen.
      destruct (Z.leb_spec (Z.of_nat L) (Z.of_nat k + 1)) as [?|_]; [lia|].
      replace (Z.of_nat k + 1) with (Z.of_nat (S k)) by lia.
      destruct (IH (pre ++ [w]) st' (S k)) as [c' ->];
        [rewrite length_app; simpl; lia|simpl; lia|].
      simpl. by eexists.
Qed.

(** X9.  A freshly built comb of delay length [L] taps exactly [+0.0] for
    each of its first [L] samples, whatever the input samples, the damping
    coefficients and the feedback are (also infinite or NaN): nothing fed to
    it is heard before [L] samples have passed. *)
Theorem fresh_comb_latency (d1 d2 fb : float) (L : nat) (xs : list float) :
  (length xs <= L)%nat ->
  exists c',
    comb_feed d1 d2 fb (new_comb (Z.of_nat L)) xs =
    Some (replicate (length xs) F32.zero, c').
Proof.
  intros Hlen. unfold new_comb. rewrite Nat2Z.id.
  destruct (feed_fresh_prefix d1 d2 fb L xs [] F32.zero 0) as [c' Hc'];
    [reflexivity|lia|].
  exists c'. by rewrite Nat.sub_0_r in Hc'.
Qed.

Lemma fresh_comb_latency_witness :
  (length [F32.one; S754_nan; S754_infinity false] <= 3)%nat /\
  exists c',
    comb_feed (F32.literal 1 2) S754_nan F32.one (new_comb 3)
              [F32.one; S754_nan; S754_infinity false] =
    Some ([F32.zero; F32.zero; F32.zero], c').
Proof.
  split; [simpl; lia|].
  apply (fresh_comb_latency (F32.literal 1 2) S754_nan F32.one 3
           [F32.one; S754_nan; S754_infinity false]).
  simpl. lia.
Defined.

(** Feeding a comb fewer samples than it takes its index to reach position
    [j] leaves the sample at [j] as it is. *)
Lemma feed_keeps_cell (d1 d2 fb : float) (xs : list float) :
  forall (c : comb) (b : list float) (i j : nat),
    buffer c = Some b ->
    size c = Z.of_nat (length b) ->
    idx c = Z.of_nat i ->
    (i < length b)%nat ->
    (j < length b)%nat ->
    (length xs <= if (i <=? j)%nat then j - i else j + length b - i)%nat ->
    exists outs c' b',
      comb_feed d1 d2 fb c xs = Some (outs, c') /\
      buffer c' = Some b' /\
      length b' = length b /\
      size c' = size c /\
      b' !! j = b !! j /\
      idx c' = Z.of_nat ((i + length xs) mod length b).
Proof.
  induction xs as [|x xs IH]; intros c b i j Hb Hsz Hidx Hi Hj Hd.
  - exists [], c, b. simpl. repeat split; auto.
    by rewrite Nat.add_0_r, Nat.mod_small.
  - simpl in Hd.
    assert (i <> j) as Hij by (destruct (Nat.leb_spec i j); lia).
    destruct (lookup_lt_is_Some_2 b i Hi) as [tmp Htmp].
    cbn [comb_feed]. unfold comb_advance. rewrite Hb, Hidx.
    cbn [mbind option_bind].
    destruct (Z.ltb_spec (Z.of_nat i) 0) as [?|_]; [lia|].
    rewrite Nat2Z.id, Htmp. cbn [mbind option_bind].
    set (st := F32.add (F32.mul tmp d2) (F32.mul (store c) d1)).
    set (w := F32.add x (F32.mul st fb)).
    set (i1 := if (S i =? length b)%nat then 0%nat else S i).
    assert ((if size c <=? Z.of_nat i + 1 then 0 else Z.of_nat i + 1) =
            Z.of_nat i1) as ->.
    { unfold i1. rewrite Hsz.
      destruct (Z.leb_spec (Z.of_nat (length b)) (Z.of_nat i + 1)),
               (Nat.eqb_spec (S i) (length b)); lia. }
    destruct (IH (mk_comb st (Some (<[i := w]> b)) (size c) (Z.of_nat i1))
                 (<[i := w]> b) i1 j)
      as (outs & c' & b' & -> & Hb' & Hlen' & Hsz' & Hcell & Hidx').
    + reflexivity.
    + simpl. by rewrite length_insert.
    + reflexivity.
    + rewrite length_insert. unfold i1.
      destruct (Nat.eqb_spec (S i) (length b)); lia.
    + by rewrite length_insert.
    + rewrite length_insert. unfold i1.
      destruct (Nat.eqb_spec (S i) (length b)), (Nat.leb_spec i j);
        repeat (match goal with |- context [(?a <=? ?b)%nat] =>
                  destruct (Nat.leb_spec a b) end); lia.
    + exists (tmp :: outs), c', b'. simpl.
      rewrite length_insert in Hlen', Hidx'.
      repeat split; auto.
      * rewrite Hcell. by apply list_lookup_insert_ne.
      * rewrite Hidx'. f_equal. unfold i1.
        destruct (Nat.eqb_spec (S i) (length b)) as [HL|_].
        -- rewrite <- HL at 2.
           replace (i + S (length xs))%nat
             with (length xs + 1 * S i)%nat by lia.
           rewrite HL. by rewrite Nat.Div0.mod_add.
        -- f_equal. lia.
Qed.

(** X10.  The delay law of a comb.  For a comb whose buffer holds [L >= 1]
    samples and whose index lies inside it, the value tapped [L] steps after
    a sample [x] was fed is exactly what the first step stored for [x]:
    [x + store' * fb], with [store'] the store updated by that first step.
    The samples fed in between do not matter. *)
Theorem comb_delay_law (d1 d2 fb x y : float) (xs : list float) (c : comb)
    (b : list float) :
  buffer c = Some b ->
  Z.of_nat (length b) = size c ->
  0 <= idx c < size c ->
  (length xs + 1 = length b)%nat ->
  exists tapped mid c',
    b !! Z.to_nat (idx c) = Some tapped /\
    comb_feed d1 d2 fb c (x :: xs ++ [y]) =
    Some (tapped :: mid ++
            [F32.add x
               (F32.mul (F32.add (F32.mul tapped d2) (F32.mul (store c) d1))
                        fb)],
          c').
Proof.
  intros Hb Hsz Hidx Hlen.
  set (i := Z.to_nat (idx c)).
  assert (i < length b)%nat as Hi by (unfold i; lia).
  destruct (lookup_lt_is_Some_2 b i Hi) as [tapped Htap].
  exists tapped. cbn [comb_feed]. unfold comb_advance. rewrite Hb.
  cbn [mbind option_bind].
  destruct (Z.ltb_spec (idx c) 0) as [?|_]; [lia|].
  fold i. rewrite Htap. cbn [mbind option_bind].
  set (st := F32.add (F32.mul tapped d2) (F32.mul (store c) d1)).
  set (w := F32.add x (F32.mul st fb)).
  set (i1 := if (S i =? length b)%nat then 0%nat else S i).
  assert ((if size c <=? idx c + 1 then 0 else idx c + 1) = Z.of_nat i1)
    as ->.
  { unfold i1, i. rewrite <- Hsz.
    destruct (Z.leb_spec (Z.of_nat (length b)) (idx c + 1)),
             (Nat.eqb_spec (S (Z.to_nat (idx c))) (length b)); lia. }
  rewrite comb_feed_app.
  destruct (feed_keeps_cell d1 d2 fb xs
              (mk_comb st (Some (<[i := w]> b)) (size c) (Z.of_nat i1))
              (<[i := w]> b) i1 i)
    as (mid & c2 & b2 & -> & Hb2 & Hlen2 & Hsz2 & Hcell & Hidx2).
  - reflexivity.
  - simpl. by rewrite length_insert.
  - reflexivity.
  - rewrite length_insert. unfold i1.
    destruct (Nat.eqb_spec (S i) (length b)); lia.
  - by rewrite length_insert.
  - rewrite length_insert. unfold i1.
    destruct (Nat.eqb_spec (S i) (length b));
      repeat (match goal with |- context [(?a <=? ?b)%nat] =>
                destruct (Nat.leb_spec a b) end); lia.
  - cbn [mbind option_bind].
    rewrite length_insert in Hlen2, Hidx2.
    rewrite list_lookup_insert_eq in Hcell by exact Hi.
    assert ((i1 + length xs) mod length b = i)%nat as Hback.
    { unfold i1. destruct (Nat.eqb_spec (S i) (length b)) as [HL|HL].
      - rewrite Nat.mod_small by lia. lia.
      - replace (S i + length xs)%nat with (i + 1 * length b)%nat by lia.
        rewrite Nat.Div0.mod_add. by apply Nat.mod_small. }
    rewrite Hback in Hidx2.
    cbn [comb_feed]. unfold comb_advance. rewrite Hb2, Hidx2.
    cbn [mbind option_bind].
    destruct (Z.ltb_spec (Z.of_nat i) 0) as [?|_]; [lia|].
    rewrite Nat2Z.id, Hcell. cbn [mbind option_bind].
    eexists mid, _. split; [reflexivity|]. reflexivity.
Qed.

Lemma comb_delay_law_witness :
  (0 <= 1 < 3 /\ (length [F32.one; F32.one] + 1 = 3)%nat) /\
  exists tapped mid c',
    [F32.zero; F32.one; F32.zero] !! 1%nat = Some tapped /\
    comb_feed F32.zero F32.one (F32.literal 1 2)
      (mk_comb F32.zero (Some [F32.zero; F32.one; F32.zero]) 3 1)
      (F32.of_Z 2 :: [F32.one; F32.one] ++ [F32.zero]) =
    Some (tapped :: mid ++
            [F32.add (F32.of_Z 2)
               (F32.mul (F32.add (F32.mul tapped F32.one)
                                 (F32.mul F32.zero F32.zero))
                        (F32.literal 1 2))],
          c').
Proof.
  split; [split; [lia|reflexivity]|].
  apply (comb_delay_law F32.zero F32.one (F32.literal 1 2) (F32.of_Z 2)
           F32.zero [F32.one; F32.one]
           (mk_comb F32.zero (Some [F32.zero; F32.one; F32.zero]) 3 1)
           [F32.zero; F32.one; F32.zero]);
    simpl; try reflexivity; lia.
Defined.

(** ** Silence *)

Lemma mul_zero_l (x y : float) :
  is_zero x = true -> is_finite y = true -> is_zero (F32.mul x y) = true.
Proof. by destruct x, y. Qed.

Lemma add_zeros (x y : float) :
  is_zero x = true -> is_zero y = true -> is_zero (F32.add x y) = true.
Proof. destruct x as [[]| | |], y as [[]| | |]; done. Qed.

Lemma clamp_wet_finite (w : float) :
  F32.is_nan w = false -> is_finite (clamp_wet w) = true.
Proof.
  unfold clamp_wet. destruct w as [s|[]| |[] m e]; try done.
  intros _. by destruct (F32.ltb F32.one (S754_finite false m e)).
Qed.

Lemma comb_advance_silent (x d1 d2 fb tmp : float) (c c' : comb) :
  is_zero x = true ->
  is_finite d1 = true -> is_finite d2 = true -> is_finite fb = true ->
  silent_comb c ->
  comb_advance x d1 d2 fb c = Some (tmp, c') ->
  is_zero tmp = true /\ silent_comb c'.
Proof.
  intros Hx Hd1 Hd2 Hfb (Hst & b & Hb & Hzeros).
  unfold comb_advance. rewrite Hb. cbn [mbind option_bind].
  destruct (idx c <? 0); [discriminate|].
  destruct (b !! Z.to_nat (idx c)) as [t|] eqn:Ht; [simpl|discriminate].
  intros [= <- <-].
  assert (is_zero t = true) as Hzt
    by exact (proj1 (Forall_lookup _ b) Hzeros _ _ Ht).
  assert (is_zero (F32.add (F32.mul t d2) (F32.mul (store c) d1)) = true)
    as Hst' by auto using add_zeros, mul_zero_l.
  split; [exact Hzt|]. split; [exact Hst'|].
  eexists. split; [reflexivity|].
  apply Forall_insert; auto using add_zeros, mul_zero_l.
Qed.

Lemma run_combs_silent (x d1 d2 fb : float) (cs : list comb) :
  is_zero x = true ->
  is_finite d1 = true -> is_finite d2 = true -> is_finite fb = true ->
  forall (out out' : float) (cs' : list comb),
    Forall silent_comb cs ->
    is_zero out = true ->
    run_combs x d1 d2 fb cs out = Some (out', cs') ->
    is_zero out' = true /\ Forall silent_comb cs'.
Proof.
  intros Hx Hd1 Hd2 Hfb.
  induction cs as [|c cs IH]; intros out out' cs' Hcs Hout; simpl.
  - by intros [= <- <-].
  - apply Forall_cons in Hcs as [Hc Hcs].
    destruct (comb_advance x d1 d2 fb c) as [[tmp c1]|] eqn:Hadv;
      [simpl|discriminate].
    destruct (comb_advance_silent _ _ _ _ _ _ _ Hx Hd1 Hd2 Hfb Hc Hadv)
      as [Htmp Hc1].
    destruct (run_combs x d1 d2 fb cs (F32.add out tmp)) as [[o cs1]|] eqn:Hr;
      [simpl|discriminate].
    intros [= <- <-].
    destruct (IH _ _ _ Hcs (add_zeros _ _ Hout Htmp) Hr) as [Ho Hcs1].
    split; [exact Ho|]. by constructor.
Qed.

Lemma bank_outs_silent (input_gain d1 d2 fb : float) (input : list float)
    (n : nat) :
  is_finite input_gain = true ->
  is_finite d1 = true -> is_finite d2 = true -> is_finite fb = true ->
  forall (i : nat) (cs cs' : list comb) (mixed : list float),
    Forall silent_comb cs ->
    (forall k a, (i <= k < i + n)%nat -> input !! k = Some a ->
                 is_zero a = true) ->
    bank_outs input_gain d1 d2 fb input n i cs = Some (mixed, cs') ->
    Forall (fun m => is_zero m = true) mixed /\ Forall silent_comb cs'.
Proof.
  intros Hg Hd1 Hd2 Hfb.
  induction n as [|n IH]; intros i cs cs' mixed Hcs Hin; simpl.
  - by intros [= <- <-].
  - destruct (input !! i) as [a|] eqn:Ha; [simpl|discriminate].
    destruct (run_combs _ _ _ _ _ _) as [[out cs1]|] eqn:Hr;
      [simpl|discriminate].
    destruct (bank_outs _ _ _ _ _ _ _ _) as [[outs cs2]|] eqn:Hb;
      [simpl|discriminate].
    intros [= <- <-].
    assert (is_zero (F32.mul a input_gain) = true) as Hx.
    { apply mul_zero_l; [|exact Hg]. apply (Hin i a); [lia|exact Ha]. }
    destruct (run_combs_silent _ _ _ _ _ Hx Hd1 Hd2 Hfb F32.zero _ _ Hcs
                eq_refl Hr)
      as [Hout Hcs1].
    destruct (IH (S i) cs1 cs2 outs Hcs1) as [Houts Hcs2]; [|exact Hb|].
    { intros k b Hk. apply Hin. lia. }
    split; [by constructor|exact Hcs2].
Qed.

(** X11.  Silence in, silence out.  In Replace mode, when the combs hold no
    energy (zero stores, buffers of zeros), the first [n] input samples are
    zeros, the coefficients in force and the input gain are finite and no
    wet control is NaN, a block of [n] samples that returns writes a zero
    at each of the first [n] positions of both output buffers and leaves
    the combs without energy. *)
Theorem silence_in_silence_out (p p' : ports) (s s' : symp) (n : nat) :
  symp_run p s n = Some (s', p') ->
  let s1 := refresh_feedback p (refresh_damping p s) in
  is_finite (damp1 s1) = true ->
  is_finite (damp2 s1) = true ->
  is_finite (scaled_feedback s1) = true ->
  is_finite (ctrl_gain_input p) = true ->
  F32.is_nan (ctrl_wet_left p) = false ->
  F32.is_nan (ctrl_wet_right p) = false ->
  Forall silent_comb (combs s) ->
  (forall i a, (i < n)%nat -> audio_input p !! i = Some a ->
               is_zero a = true) ->
  Forall silent_comb (combs s') /\
  forall i, (i < n)%nat ->
    exists z1 z2,
      audio_output1 p' !! i = Some z1 /\ is_zero z1 = true /\
      audio_output2 p' !! i = Some z2 /\ is_zero z2 = true.
Proof.
  intros Hrun s1 Hd1 Hd2 Hfb Hg Hwl Hwr Hcs Hin.
  revert Hrun. unfold symp_run, symp_run_effect. fold s1.
  destruct (F32.INT_MAX <? Z.of_nat n); [discriminate|].
  destruct (run_samples _ _ _ _ _ _ _ _ _ _ _ _ _) as [[cs ob]|] eqn:Hrun;
    [simpl|discriminate].
  intros [= <- <-]. simpl.
  unfold s1 in Hrun at 4. rewrite refresh_keeps_combs in Hrun.
  destruct (run_samples_left _ _ _ _ _ _ _ _ _ _ _ _ _ _ _ Hrun)
    as (mixed & Hbank & Hlen & _ & _ & Hleft & _).
  destruct (run_samples_right _ _ _ _ _ _ _ _ _ _ _ _ _ _ _ Hrun)
    as (mixed' & Hbank' & _ & _ & _ & Hright & _).
  assert (mixed' = mixed) as -> by congruence.
  assert (forall k a, (0 <= k < 0 + n)%nat -> audio_input p !! k = Some a ->
                      is_zero a = true) as Hin'
    by (intros k a Hk; apply Hin; lia).
  destruct (bank_outs_silent _ _ _ _ _ _ Hg Hd1 Hd2 Hfb _ _ _ _ Hcs Hin'
              Hbank)
    as [Hmixed Hcs'].
  split; [exact Hcs'|].
  intros i Hi.
  destruct (lookup_lt_is_Some_2 mixed i) as [m Hm]; [lia|].
  assert (is_zero m = true) as Hzm
    by exact (proj1 (Forall_lookup _ mixed) Hmixed _ _ Hm).
  exists (F32.mul m (clamp_wet (ctrl_wet_left p))),
         (F32.mul m (clamp_wet (ctrl_wet_right p))).
  split; [exact (Hleft i m Hm)|].
  split; [auto using mul_zero_l, clamp_wet_finite|].
  split; [exact (Hright i m Hm)|auto using mul_zero_l, clamp_wet_finite].
Qed.

Lemma silence_in_silence_out_witness :
  exists s' p',
    symp_run (example_ports [24000] (F32.literal 1 2) F32.one
                (F32.literal 1 2) (replicate 3 F32.zero)
                (replicate 3 F32.one))
             demo_state 3 = Some (s', p') /\
    Forall silent_comb (combs s') /\
    forall i, (i < 3)%nat ->
      exists z1 z2,
        audio_output1 p' !! i = Some z1 /\ is_zero z1 = true /\
        audio_output2 p' !! i = Some z2 /\ is_zero z2 = true.
Proof.
  destruct (symp_run (example_ports [24000] (F32.literal 1 2) F32.one
                        (F32.literal 1 2) (replicate 3 F32.zero)
                        (replicate 3 F32.one)) demo_state 3)
    as [[s' p']|] eqn:Hrun; [|discriminate Hrun].
  exists s', p'. split; [reflexivity|].
  apply (silence_in_silence_out _ p' demo_state s' 3 Hrun);
    try reflexivity.
  - repeat constructor. exists [F32.zero; F32.zero].
    split; [reflexivity|repeat constructor].
  - intros [|[|[|i]]] a Hi; simpl; try lia; by intros [= <-].
Defined.

(** ** An empty or broken bank *)

Lemma bank_outs_empty (input_gain d1 d2 fb : float) (input : list float)
    (n : nat) :
  forall (i : nat) (mixed : list float) (cs' : list comb),
    bank_outs input_gain d1 d2 fb input n i [] = Some (mixed, cs') ->
    mixed = replicate n F32.zero /\ cs' = [].
Proof.
  induction n as [|n IH]; intros i mixed cs'; simpl.
  - by intros [= <- <-].
  - destruct (input !! i) as [a|]; [simpl|discriminate].
    destruct (bank_outs _ _ _ _ _ _ _ _) as [[outs cs2]|] eqn:Hb;
      [simpl|discriminate].
    intros [= <- <-]. by destruct (IH _ _ _ Hb) as [-> ->].
Qed.

(** X12.  With no comb in the bank (no active string, or after
    deactivation) a Replace block that returns writes [0.0 * gain] at each
    of its [n] positions in both channels, whatever the input block holds,
    and the bank stays empty; the product is a zero unless the wet control
    is NaN. *)
Theorem empty_bank_is_silent (p p' : ports) (s s' : symp) (n : nat) :
  combs s = [] ->
  symp_run p s n = Some (s', p') ->
  combs s' = [] /\
  forall i, (i < n)%nat ->
    audio_output1 p' !! i =
      Some (F32.mul F32.zero (clamp_wet (ctrl_wet_left p))) /\
    audio_output2 p' !! i =
      Some (F32.mul F32.zero (clamp_wet (ctrl_wet_right p))) /\
    (F32.is_nan (ctrl_wet_left p) = false ->
     is_zero (F32.mul F32.zero (clamp_wet (ctrl_wet_left p))) = true) /\
    (F32.is_nan (ctrl_wet_right p) = false ->
     is_zero (F32.mul F32.zero (clamp_wet (ctrl_wet_right p))) = true).
Proof.
  intros Hempty. unfold symp_run, symp_run_effect.
  destruct (F32.INT_MAX <? Z.of_nat n); [discriminate|].
  destruct (run_samples _ _ _ _ _ _ _ _ _ _ _ _ _) as [[cs ob]|] eqn:Hrun;
    [simpl|discriminate].
  intros [= <- <-]. simpl.
  rewrite refresh_keeps_combs, Hempty in Hrun.
  destruct (run_samples_left _ _ _ _ _ _ _ _ _ _ _ _ _ _ _ Hrun)
    as (mixed & Hbank & Hlen & _ & _ & Hleft & _).
  destruct (run_samples_right _ _ _ _ _ _ _ _ _ _ _ _ _ _ _ Hrun)
    as (mixed' & Hbank' & _ & _ & _ & Hright & _).
  assert (mixed' = mixed) as -> by congruence.
  destruct (bank_outs_empty _ _ _ _ _ _ _ _ _ Hbank) as [-> ->].
  split; [reflexivity|]. intros i Hi.
  assert (replicate n F32.zero !! i = Some F32.zero) as Hm
    by (by apply lookup_replicate_2).
  split; [exact (Hleft i _ Hm)|]. split; [exact (Hright i _ Hm)|].
  split; intros Hnan; apply mul_zero_l; auto using clamp_wet_finite.
Qed.

Lemma empty_bank_is_silent_witness :
  exists s' p',
    symp_run demo_ports (symp_deactivate demo_state) 4 = Some (s', p') /\
    combs s' = [] /\
    audio_output1 p' = replicate 4 F32.zero.
Proof.
  destruct (symp_run demo_ports (symp_deactivate demo_state) 4)
    as [[s' p']|] eqn:Hrun; [|discriminate Hrun].
  exists s', p'. split; [reflexivity|].
  split; [exact (proj1 (empty_bank_is_silent demo_ports p'
                          (symp_deactivate demo_state) s' 4 eq_refl Hrun))|].
  injection Hrun as _ <-. reflexivity.
Defined.

Lemma run_combs_broken (x d1 d2 fb : float) (c : comb) (cs : list comb) :
  c ∈ cs ->
  comb_advance x d1 d2 fb c = None ->
  forall out, run_combs x d1 d2 fb cs out = None.
Proof.
  intros Hc Hnone. induction cs as [|c0 cs IH]; intros out.
  - by apply elem_of_nil in Hc.
  - simpl. apply elem_of_cons in Hc as [<-|Hc].
    + by rewrite Hnone.
    + destruct (comb_advance x d1 d2 fb c0) as [[tmp c1]|]; [simpl|done].
      by rewrite (IH Hc).
Qed.

(** X13.  A bank that holds a comb with a NULL buffer or a buffer of no
    samples (what a failed or a zero-sized allocation leaves) makes every
    block of at least one sample undefined, in both modes and whatever the
    other combs, the controls and the buffers are. *)
Theorem broken_bank_undefined (p : ports) (s : symp) (n : nat) (add : bool)
    (c : comb) :
  c ∈ combs s ->
  buffer c = None \/ buffer c = Some [] ->
  (1 <= n)%nat ->
  symp_run_effect p s n add = None.
Proof.
  intros Hc Hbad Hn. unfold symp_run_effect.
  destruct (F32.INT_MAX <? Z.of_nat n); [reflexivity|].
  rewrite refresh_keeps_combs.
  destruct n as [|n]; [lia|]. cbn [run_samples].
  destruct (audio_input p !! 0%nat) as [a|]; [simpl|reflexivity].
  rewrite (run_combs_broken _ _ _ _ c _ Hc); [reflexivity|].
  unfold comb_advance. destruct Hbad as [->| ->]; [reflexivity|].
  simpl. by destruct (idx c <? 0).
Qed.

Lemma broken_bank_undefined_witness :
  zeroed_comb ∈ [new_comb 109; zeroed_comb] /\
  symp_run_effect two_string_ports
    (set_combs fresh_state [new_comb 109; zeroed_comb]) 1 true = None.
Proof.
  assert (zeroed_comb ∈ [new_comb 109; zeroed_comb]) as Hin
    by (apply elem_of_cons; right; apply elem_of_cons; by left).
  split; [exact Hin|].
  apply (broken_bank_undefined two_string_ports
           (set_combs fresh_state [new_comb 109; zeroed_comb]) 1 true
           zeroed_comb Hin); [by left|lia].
Defined.

(** ** Further facts on the controls *)

Lemma not_ltb_leb (x y : float) :
  F32.is_nan x = false -> F32.is_nan y = false ->
  F32.ltb x y = false -> F32.leb y x = true.
Proof.
  intros Hx Hy. unfold F32.ltb, F32.leb, SFltb, SFleb.
  rewrite (compare_antisym x y).
  destruct (SFcompare x y) as [[]|] eqn:Hc; try done.
  destruct x, y; try discriminate; simpl in Hc; discriminate.
Qed.

(** X14.  The gain [clamp_wet] yields for a wet control that is not NaN lies
    in [0,1] (also for infinite controls); a NaN control comes out as NaN,
    unclamped.  Clamping twice is clamping once. *)
Theorem clamp_wet_range (w : float) :
  (if F32.is_nan w then clamp_wet w = S754_nan
   else F32.leb F32.zero (clamp_wet w) = true /\
        F32.leb (clamp_wet w) F32.one = true) /\
  clamp_wet (clamp_wet w) = clamp_wet w.
Proof.
  assert (if F32.is_nan w then clamp_wet w = S754_nan
          else F32.leb F32.zero (clamp_wet w) = true /\
               F32.leb (clamp_wet w) F32.one = true) as Hrange.
  { destruct (F32.is_nan w) eqn:Hnan.
    - by destruct w.
    - unfold clamp_wet.
      destruct (F32.ltb w F32.zero) eqn:H0; [done|].
      destruct (F32.ltb F32.one w) eqn:H1; [done|].
      split; by apply not_ltb_leb. }
  split; [exact Hrange|].
  destruct (F32.is_nan w).
  - by rewrite Hrange.
  - destruct Hrange. by apply clamp_wet_inside.
Qed.

Lemma round_aux_sign (sx : bool) (mx ex : Z) (lx : location) :
  match binary_round_aux F32.prec F32.emax sx mx ex lx with
  | S754_zero s | S754_infinity s | S754_finite s _ _ => s = sx
  | S754_nan => True
  end.
Proof.
  unfold binary_round_aux.
  destruct (shr_fexp _ _ _ _ _) as [mrs' e'].
  destruct (shr_fexp _ _ _ _ _) as [mrs'' e''].
  destruct (shr_m mrs''); [done| |done].
  by destruct (_ <=? _).
Qed.

Lemma of_Z_sign (z : Z) :
  0 <= z ->
  match F32.of_Z z with
  | S754_zero s | S754_infinity s | S754_finite s _ _ => s = false
  | S754_nan => True
  end.
Proof.
  intros Hz. unfold F32.of_Z, binary_normalize.
  destruct z as [|m|m]; [done| |lia].
  unfold binary_round. destruct (shl_align _ _ _) as [mz ez].
  apply round_aux_sign.
Qed.

Lemma to_int_sign (x : float) (z : Z) :
  match x with
  | S754_zero s | S754_infinity s | S754_finite s _ _ => s = false
  | S754_nan => True
  end ->
  F32.to_int x = Some z -> 0 <= z.
Proof.
  destruct x as [s|s| |s m e]; simpl; try discriminate.
  - intros _ [= <-]. lia.
  - intros ->. simpl.
    destruct (_ && _); [|discriminate]. intros [= <-].
    apply Z.shiftl_nonneg. lia.
Qed.

(** X15.  For a sample rate that is not negative (it is an [unsigned long])
    and a tuning the setup loop does not skip, the delay length computed for
    the comb, when the conversion to [int] is defined, is never negative (it
    can be 0), and it is at most [INT_MAX]. *)
Theorem comb_size_nonneg (rate : Z) (t : float) (sz : Z) :
  0 <= rate ->
  F32.leb t F32.zero = false ->
  comb_size rate t = Some sz ->
  0 <= sz <= F32.INT_MAX.
Proof.
  intros Hrate Hpos Hsz. split.
  - revert Hsz. unfold comb_size. apply to_int_sign.
    pose proof (of_Z_sign rate Hrate) as Hr.
    destruct (F32.of_Z rate) as [sr|sr| |sr mr er], t as [[]|[]| |[] m e];
      try discriminate; try done; subst sr; try done.
    unfold F32.div, SFdiv.
    destruct (SFdiv_core_binary _ _ _ _ _ _) as [[mz ez] lz].
    apply (round_aux_sign false mz ez lz).
  - unfold comb_size, F32.to_int in Hsz.
    destruct (F32.div _ _) as [s|s| |s m e]; try discriminate.
    + injection Hsz as <-. done.
    + destruct (_ <=? _) eqn:H1; [|discriminate].
      destruct (_ <=? F32.INT_MAX) eqn:H2; [|discriminate].
      injection Hsz as <-. by apply Z.leb_le.
Qed.

Lemma comb_size_nonneg_witness :
  (0 <= 44100 /\ F32.leb (F32.of_Z 48000) F32.zero = false /\
   comb_size 44100 (F32.of_Z 48000) = Some 0) /\
  0 <= 0 <= F32.INT_MAX.
Proof.
  split; [split; [lia|split; reflexivity]|].
  apply (comb_size_nonneg 44100 (F32.of_Z 48000) 0);
    [lia|reflexivity|reflexivity].
Defined.

(** ** The adding gain *)

Lemma run_samples_replace_gain (g g' input_gain wl wr d1 d2 fb : float)
    (input : list float) (n : nat) :
  forall (i : nat) (cs : list comb) (ob : outbufs),
    run_samples false g input_gain wl wr d1 d2 fb input n i cs ob =
    run_samples false g' input_gain wl wr d1 d2 fb input n i cs ob.
Proof.
  induction n as [|n IH]; intros i cs ob; cbn [run_samples];
    [reflexivity|].
  destruct (input !! i) as [a|]; [|reflexivity].
  cbn [mbind option_bind].
  destruct (run_combs _ _ _ _ _ _) as [[out cs1]|]; [|reflexivity].
  cbn [mbind option_bind].
  change (mix_sample false out g wl wr ob)
    with (mix_sample false out g' wl wr ob).
  destruct (mix_sample false out g' wl wr ob) as [ob1|]; [|reflexivity].
  cbn [mbind option_bind]. apply IH.
Qed.

Lemma refresh_set_gain (p : ports) (s : symp) (g : float) :
  refresh_feedback p (refresh_damping p (symp_set_run_adding_gain s g)) =
  symp_set_run_adding_gain (refresh_feedback p (refresh_damping p s)) g.
Proof.
  unfold refresh_feedback, refresh_damping, symp_set_run_adding_gain. simpl.
  destruct (negb (F32.eqb (ctrl_damping p) (damping s))); simpl;
    by destruct (negb (F32.eqb (ctrl_feedback p) (feedback s))).
Qed.

(** X16.  The adding gain does not enter Replace mode: [symp_run] after
    [symp_set_run_adding_gain] is undefined exactly when it is without it,
    and otherwise writes the same output buffers and leaves the same
    effect, up to the gain that was set. *)
Theorem run_ignores_adding_gain (p : ports) (s : symp) (n : nat)
    (g : float) :
  symp_run p (symp_set_run_adding_gain s g) n =
  prod_map (fun s' => symp_set_run_adding_gain s' g) id <$> symp_run p s n.
Proof.
  unfold symp_run, symp_run_effect. rewrite refresh_set_gain.
  destruct (F32.INT_MAX <? Z.of_nat n); [reflexivity|].
  cbn [run_adding_gain symp_set_run_adding_gain combs damp1 damp2
       scaled_feedback].
  rewrite (run_samples_replace_gain g (run_adding_gain s)).
  by destruct (run_samples _ _ _ _ _ _ _ _ _ _ _ _ _) as [[cs ob]|].
Qed.

(** ** Port binding *)

(** X17.  [symp_connect_port] on a handle with its eleven tuning slots: a
    port index below [PortCount] (19) makes that port, and no other, stand
    for the buffer given; an index from [PortCount] on changes nothing; the
    field [ctrl_input_gain] is written by no port. *)
Theorem connect_port_binds (b : Binding.t) (port : nat)
    (buf : Binding.pointer) :
  length (Binding.ctrl_tunings b) = COMB_COUNT ->
  ((port < PortCount)%nat ->
   bound_to (symp_connect_port b port buf) port = Some buf) /\
  ((PortCount <= port)%nat -> symp_connect_port b port buf = b) /\
  (forall q, q <> port ->
     bound_to (symp_connect_port b port buf) q = bound_to b q) /\
  Binding.ctrl_input_gain (symp_connect_port b port buf) =
    Binding.ctrl_input_gain b /\
  length (Binding.ctrl_tunings (symp_connect_port b port buf)) = COMB_COUNT.
Proof.
  destruct b as [tun fb dmp gin wl wr ing inp o1 o2]. simpl.
  intros Hlen.
  unfold symp_connect_port, bound_to, PortCount, PORT_FEEDBACK,
    PORT_DAMPING, PORT_GAIN_INPUT, PORT_WET_LEFT, PORT_WET_RIGHT,
    PORT_INPUT, PORT_OUTPUT1, PORT_OUTPUT2, COMB_COUNT in *.
  repeat split.
  - intros Hport.
    repeat (match goal with
            | |- context [(?a <? ?b)%nat] => destruct (Nat.ltb_spec a b)
            | |- context [(?a =? ?b)%nat] => destruct (Nat.eqb_spec a b)
            end; simpl; try lia; try reflexivity).
    apply list_lookup_insert_eq. lia.
  - intros Hport.
    repeat (match goal with
            | |- context [(?a <? ?b)%nat] => destruct (Nat.ltb_spec a b)
            | |- context [(?a =? ?b)%nat] => destruct (Nat.eqb_spec a b)
            end; simpl; try lia; try reflexivity).
  - intros q Hq.
    repeat (match goal with
            | |- context [(?a <? ?b)%nat] => destruct (Nat.ltb_spec a b)
            | |- context [(?a =? ?b)%nat] => destruct (Nat.eqb_spec a b)
            end; simpl; try lia; try reflexivity).
    by apply list_lookup_insert_ne.
  - repeat (match goal with
            | |- context [(?a <? ?b)%nat] => destruct (Nat.ltb_spec a b)
            | |- context [(?a =? ?b)%nat] => destruct (Nat.eqb_spec a b)
            end; simpl; try lia; try reflexivity).
  - repeat (match goal with
            | |- context [(?a <? ?b)%nat] => destruct (Nat.ltb_spec a b)
            | |- context [(?a =? ?b)%nat] => destruct (Nat.eqb_spec a b)
            end; simpl; try lia; try reflexivity);
      rewrite ?length_insert; exact Hlen.
Qed.

Lemma connect_port_binds_witness :
  length (Binding.ctrl_tunings unbound) = COMB_COUNT /\
  bound_to (symp_connect_port unbound PORT_WET_LEFT 4096) PORT_WET_LEFT =
    Some 4096 /\
  symp_connect_port unbound 19 4096 = unbound /\
  bound_to (symp_connect_port unbound 3 4096) 3%nat = Some 4096.
Proof.
  split; [reflexivity|].
  split; [apply (connect_port_binds unbound PORT_WET_LEFT 4096 eq_refl);
          unfold PortCount, PORT_WET_LEFT, COMB_COUNT; lia|].
  split; [apply (connect_port_binds unbound 19 4096 eq_refl);
          unfold PortCount, COMB_COUNT; lia|].
  apply (connect_port_binds unbound 3 4096 eq_refl).
  unfold PortCount, COMB_COUNT; lia.
Defined.

(** ** A defined block, on an example *)

Lemma symp_run_effect_defined_witness :
  (Forall comb_ok (combs demo_state) /\
   Z.of_nat 4 <= F32.INT_MAX /\
   (4 <= length (audio_input demo_ports))%nat /\
   (4 <= length (audio_output1 demo_ports))%nat /\
   (4 <= length (audio_output2 demo_ports))%nat) /\
  exists s' p',
    symp_run_effect demo_ports demo_state 4 true = Some (s', p') /\
    Forall comb_ok (combs s').
Proof.
  assert (Forall comb_ok (combs demo_state)) as Hok.
  { repeat constructor. apply new_comb_ok. lia. }
  assert (Z.of_nat 4 <= F32.INT_MAX) as Hn by (unfold F32.INT_MAX; lia).
  assert (4 <= length (audio_input demo_ports))%nat as Hin
    by (simpl; lia).
  assert (4 <= length (audio_output1 demo_ports))%nat as H1
    by (simpl; lia).
  assert (4 <= length (audio_output2 demo_ports))%nat as H2
    by (simpl; lia).
  split; [auto|].
  exact (symp_run_effect_defined demo_ports demo_state 4 true
           Hok Hn Hin H1 H2).
Defined.

(** ** Splitting a block *)

Lemma run_samples_split (add : bool)
    (adding_gain input_gain wl wr d1 d2 fb : float) (input : list float)
    (n m : nat) :
  forall (i : nat) (cs : list comb) (ob : outbufs),
    run_samples add adding_gain input_gain wl wr d1 d2 fb input (n + m) i
                cs ob =
    '(cs', ob') ← run_samples add adding_gain input_gain wl wr d1 d2 fb
                    input n i cs ob;
    run_samples add adding_gain input_gain wl wr d1 d2 fb input m (i + n)
                cs' ob'.
Proof.
  induction n as [|n IH]; intros i cs ob; cbn [run_samples Nat.add].
  - cbn [mbind option_bind]. by rewrite Nat.add_0_r.
  - destruct (input !! i) as [a|]; [|reflexivity].
    cbn [mbind option_bind].
    destruct (run_combs _ _ _ _ _ _) as [[out cs1]|]; [|reflexivity].
    cbn [mbind option_bind].
    destruct (mix_sample _ _ _ _ _ _) as [ob1|]; [|reflexivity].
    cbn [mbind option_bind]. rewrite IH.
    by replace (S i + n)%nat with (i + S n)%nat by lia.
Qed.

Lemma mix_channel_writes (add : bool) (out g w : float) (l l' : list float)
    (q q' : nat) :
  mix_channel add out g w l q = Some (l', q') ->
  if writes add w then q' = S q /\ (q < length l)%nat
  else q' = q /\ l' = l.
Proof.
  unfold mix_channel, writes, accum_at, write_at.
  destruct add; [destruct (F32.ltb F32.zero w)|]; simpl;
    try (destruct (l !! q) as [old|] eqn:Hq; simpl; [|discriminate]);
    intros [= <- <-]; split; auto;
    by apply lookup_lt_is_Some_1.
Qed.

(** Where the left pointer ends, and how far the buffers reach. *)
Lemma run_samples_reach (add : bool)
    (adding_gain input_gain wl wr d1 d2 fb : float) (input : list float)
    (n : nat) :
  forall (i : nat) (cs cs' : list comb) (ob ob' : outbufs),
    run_samples add adding_gain input_gain wl wr d1 d2 fb input n i cs ob =
      Some (cs', ob') ->
    (n = 0%nat \/ (i + n <= length input)%nat) /\
    (if writes add wl
     then pos1 ob' = (pos1 ob + n)%nat /\
          (n = 0%nat \/ (pos1 ob + n <= length (out1 ob))%nat)
     else pos1 ob' = pos1 ob).
Proof.
  induction n as [|n IH]; intros i cs cs' ob ob'; simpl.
  - intros [= _ <-]. split; [by left|].
    destruct (writes add wl); [split; [lia|by left]|done].
  - destruct (input !! i) as [a|] eqn:Ha; [simpl|discriminate].
    destruct (run_combs _ _ _ _ _ _) as [[out cs1]|]; [simpl|discriminate].
    destruct (mix_sample _ _ _ _ _ _) as [ob1|] eqn:Hmix;
      [simpl|discriminate].
    intros Hrun. destruct (IH _ _ _ _ _ Hrun) as [Hin Hpos].
    apply lookup_lt_Some in Ha.
    split; [right; lia|].
    pose proof (mix_sample_left _ _ _ _ _ _ _ Hmix) as Hch.
    pose proof (proj1 (mix_channel_spec _ _ _ _ _ _ _ _ Hch)) as Hlen.
    apply mix_channel_writes in Hch.
    destruct (writes add wl).
    + destruct Hch as [Hq Hlt]. destruct Hpos as [-> Hroom].
      split; [lia|right]. rewrite Hq, Hlen in Hroom. lia.
    + destruct Hch as [Hq _]. congruence.
Qed.

Lemma mix_channel_prefix (add : bool) (out g w : float)
    (pre l l' : list float) (a q q' : nat) :
  a = length pre \/ writes add w = false ->
  mix_channel add out g w l q = Some (l', q') ->
  mix_channel add out g w (pre ++ l) (a + q) = Some (pre ++ l', (a + q')%nat).
Proof.
  unfold mix_channel, writes, accum_at, write_at.
  destruct add; [destruct (F32.ltb F32.zero w)|]; simpl;
    try (intros _ [= <- <-]; reflexivity);
    (intros [->|?]; [|discriminate]);
    (destruct (l !! q) as [old|] eqn:Hq; simpl; [|discriminate]);
    intros [= <- <-];
    rewrite lookup_app_r by lia;
    replace (length pre + q - length pre)%nat with q by lia;
    rewrite Hq; simpl;
    rewrite insert_app_r;
    do 2 f_equal; lia.
Qed.

Lemma run_samples_prefix (add : bool)
    (adding_gain input_gain wl wr d1 d2 fb : float)
    (pin input pre1 pre2 : list float) (a1 a2 : nat) (n : nat) :
  a1 = length pre1 \/ writes add wl = false ->
  a2 = length pre2 \/ writes add wr = false ->
  forall (i : nat) (cs cs' : list comb) (l1 l2 l1' l2' : list float)
         (q1 q2 q1' q2' : nat),
    run_samples add adding_gain input_gain wl wr d1 d2 fb input n i cs
                (mk_outbufs l1 q1 l2 q2) =
      Some (cs', mk_outbufs l1' q1' l2' q2') ->
    run_samples add adding_gain input_gain wl wr d1 d2 fb (pin ++ input) n
                (length pin + i) cs
                (mk_outbufs (pre1 ++ l1) (a1 + q1) (pre2 ++ l2) (a2 + q2)) =
      Some (cs', mk_outbufs (pre1 ++ l1') (a1 + q1') (pre2 ++ l2')
                            (a2 + q2')).
Proof.
  intros H1 H2.
  induction n as [|n IH]; intros i cs cs' l1 l2 l1' l2' q1 q2 q1' q2';
    cbn [run_samples].
  - by intros [= <- <- <- <- <-].
  - rewrite lookup_app_r by lia.
    replace (length pin + i - length pin)%nat with i by lia.
    destruct (input !! i) as [a|]; [|discriminate].
    cbn [mbind option_bind].
    destruct (run_combs _ _ _ _ _ _) as [[out cs1]|]; [|discriminate].
    cbn [mbind option_bind].
    rewrite !mix_sample_channels. cbn [out1 pos1 out2 pos2].
    destruct (mix_channel add out adding_gain wl l1 q1) as [[m1 r1]|] eqn:Hc1;
      [|discriminate].
    destruct (mix_channel add out adding_gain wr l2 q2) as [[m2 r2]|] eqn:Hc2;
      [|discriminate].
    rewrite (mix_channel_prefix _ _ _ _ pre1 _ _ a1 _ _ H1 Hc1).
    rewrite (mix_channel_prefix _ _ _ _ pre2 _ _ a2 _ _ H2 Hc2).
    cbn [mbind option_bind]. intros Hrun.
    replace (S (length pin + i)) with (length pin + S i)%nat by lia.
    by apply IH.
Qed.

Lemma refresh_damping_idempotent (p : ports) (s : symp) :
  refresh_damping p (refresh_damping p s) = refresh_damping p s.
Proof.
  destruct s. unfold refresh_feedback, refresh_damping, set_combs. simpl.
  repeat (match goal with
          | |- context [F32.eqb ?a ?b] => destruct (F32.eqb a b) eqn:?
          end; simpl); simpl in *; congruence.
Qed.

Lemma refresh_feedback_idempotent (p : ports) (s : symp) :
  refresh_feedback p (refresh_feedback p s) = refresh_feedback p s.
Proof.
  destruct s. unfold refresh_feedback, refresh_damping, set_combs. simpl.
  repeat (match goal with
          | |- context [F32.eqb ?a ?b] => destruct (F32.eqb a b) eqn:?
          end; simpl); simpl in *; congruence.
Qed.

Lemma refresh_commute (p : ports) (s : symp) :
  refresh_damping p (refresh_feedback p s) =
  refresh_feedback p (refresh_damping p s).
Proof.
  destruct s. unfold refresh_feedback, refresh_damping, set_combs. simpl.
  repeat (match goal with
          | |- context [F32.eqb ?a ?b] => destruct (F32.eqb a b) eqn:?
          end; simpl); simpl in *; congruence.
Qed.

Lemma refresh_set_combs (p : ports) (s : symp) (cs : list comb) :
  refresh_feedback p (refresh_damping p (set_combs s cs)) =
  set_combs (refresh_feedback p (refresh_damping p s)) cs.
Proof.
  destruct s. unfold refresh_feedback, refresh_damping, set_combs. simpl.
  repeat (match goal with
          | |- context [F32.eqb ?a ?b] => destruct (F32.eqb a b) eqn:?
          end; simpl); simpl in *; congruence.
Qed.

(** Refreshing again from the same controls changes nothing. *)
Lemma refresh_idempotent (p : ports) (s : symp) (cs : list comb) :
  refresh_feedback p
    (refresh_damping p
       (set_combs (refresh_feedback p (refresh_damping p s)) cs)) =
  set_combs (refresh_feedback p (refresh_damping p s)) cs.
Proof.
  rewrite refresh_set_combs. f_equal.
  by rewrite refresh_commute, refresh_feedback_idempotent,
    refresh_damping_idempotent.
Qed.

Lemma refresh_advance (p : ports) (n : nat) (o1 o2 : list float)
    (s : symp) :
  refresh_feedback (advance_ports n (set_outputs p o1 o2))
    (refresh_damping (advance_ports n (set_outputs p o1 o2)) s) =
  refresh_feedback p (refresh_damping p s).
Proof. reflexivity. Qed.

(** X18.  Block size does not matter.  When a block of [n] samples returns
    and the block of the next [m] samples, run with the same controls on
    the audio pointers moved [n] samples on, returns too, then the single
    block of [n + m] samples returns the same final effect and, in each
    output buffer, the samples of the first block followed by those of the
    second. *)
Theorem run_effect_split (p p1 p2 : ports) (s s1 s2 : symp) (n m : nat)
    (add : bool) :
  Z.of_nat (n + m) <= F32.INT_MAX ->
  symp_run_effect p s n add = Some (s1, p1) ->
  symp_run_effect (advance_ports n p1) s1 m add = Some (s2, p2) ->
  symp_run_effect p s (n + m) add =
  Some (s2,
        set_outputs p (take n (audio_output1 p1) ++ audio_output1 p2)
                      (take n (audio_output2 p1) ++ audio_output2 p2)).
Proof.
  intros Hmax. unfold symp_run_effect.
  destruct (Z.ltb_spec F32.INT_MAX (Z.of_nat (n + m))) as [?|_]; [lia|].
  destruct (F32.INT_MAX <? Z.of_nat n); [discriminate|].
  destruct (F32.INT_MAX <? Z.of_nat m); [discriminate|].
  rewrite run_samples_split.
  destruct (run_samples _ _ _ _ _ _ _ _ _ n _ _ _) as [[cs1 ob1]|] eqn:Hrun1;
    [|discriminate].
  cbn [mbind option_bind]. intros [= <- <-].
  rewrite refresh_advance, refresh_idempotent.
  cbn [advance_ports set_outputs ctrl_wet_left ctrl_wet_right
       ctrl_gain_input audio_input audio_output1 audio_output2
       run_adding_gain set_combs combs damp1 damp2 scaled_feedback].
  set (s0 := refresh_feedback p (refresh_damping p s)) in *.
  destruct (run_samples _ _ _ _ _ _ _ _ _ m _ _ _) as [[cs2 ob2]|] eqn:Hrun2;
    [|discriminate].
  cbn [mbind option_bind]. intros [= <- <-].
  destruct ob1 as [o1 q1 o2 q2], ob2 as [o1' q1' o2' q2'].
  cbn [out1 out2].
  destruct (run_samples_reach _ _ _ _ _ _ _ _ _ _ _ _ _ _ _ Hrun1)
    as [Hin Hq1].
  assert (run_samples add (run_adding_gain s) (ctrl_gain_input p)
            (clamp_wet (ctrl_wet_right p)) (clamp_wet (ctrl_wet_left p))
            (damp1 s0) (damp2 s0) (scaled_feedback s0) (audio_input p) n 0
            (combs s0)
            (swap_bufs (mk_outbufs (audio_output1 p) 0 (audio_output2 p) 0))
          = Some (cs1, swap_bufs (mk_outbufs o1 q1 o2 q2))) as Hswap
    by (by rewrite run_samples_swap, Hrun1).
  destruct (run_samples_reach _ _ _ _ _ _ _ _ _ _ _ _ _ _ _ Hswap)
    as [_ Hq2].
  cbn [pos1 out1 swap_bufs pos2 out2] in Hq1, Hq2.
  destruct (run_samples_left _ _ _ _ _ _ _ _ _ _ _ _ _ _ _ Hrun1)
    as (_ & _ & _ & Hl1 & _).
  destruct (run_samples_right _ _ _ _ _ _ _ _ _ _ _ _ _ _ _ Hrun1)
    as (_ & _ & _ & Hl2 & _).
  cbn [out1 out2] in Hl1, Hl2.
  pose proof (run_samples_prefix add (run_adding_gain s) (ctrl_gain_input p)
                (clamp_wet (ctrl_wet_left p)) (clamp_wet (ctrl_wet_right p))
                (damp1 s0) (damp2 s0) (scaled_feedback s0)
                (take n (audio_input p)) (drop n (audio_input p))
                (take n o1) (take n o2) q1 q2 m) as Hpre.
  rewrite take_drop in Hpre.
  assert (length (take n (audio_input p)) = n) as Hlin.
  { rewrite length_take. destruct Hin as [->|Hin]; lia. }
  rewrite Hlin in Hpre.
  assert (run_adding_gain s0 = run_adding_gain s) as Hg.
  { unfold s0, refresh_feedback, refresh_damping.
    by repeat (destruct (negb _); simpl). }
  cbn [out1 out2] in Hrun2. rewrite Hg in Hrun2.
  assert (q1 = length (take n o1) \/
          writes add (clamp_wet (ctrl_wet_left p)) = false) as Hc1.
  { destruct (writes add (clamp_wet (ctrl_wet_left p))); [left|by right].
    destruct Hq1 as [-> [->|Hroom]]; [by rewrite take_0|].
    rewrite length_take. lia. }
  assert (q2 = length (take n o2) \/
          writes add (clamp_wet (ctrl_wet_right p)) = false) as Hc2.
  { destruct (writes add (clamp_wet (ctrl_wet_right p))); [left|by right].
    destruct Hq2 as [-> [->|Hroom]]; [by rewrite take_0|].
    rewrite length_take. lia. }
  specialize (Hpre Hc1 Hc2 0%nat cs1 cs2 (drop n o1) (drop n o2) o1' o2'
                0%nat 0%nat q1' q2' Hrun2).
  rewrite !take_drop, !Nat.add_0_r in Hpre.
  cbn [Nat.add]. rewrite Hpre. reflexivity.
Qed.

Lemma run_effect_split_witness :
  Z.of_nat (2 + 2) <= F32.INT_MAX /\
  exists s1 p1 s2 p2,
    symp_run_effect demo_ports demo_state 2 true = Some (s1, p1) /\
    symp_run_effect (advance_ports 2 p1) s1 2 true = Some (s2, p2) /\
    symp_run_effect demo_ports demo_state (2 + 2) true =
    Some (s2,
          set_outputs demo_ports
            (take 2 (audio_output1 p1) ++ audio_output1 p2)
            (take 2 (audio_output2 p1) ++ audio_output2 p2)).
Proof.
  assert (Z.of_nat (2 + 2) <= F32.INT_MAX) as Hmax
    by (unfold F32.INT_MAX; simpl; lia).
  split; [exact Hmax|].
  destruct (symp_run_effect demo_ports demo_state 2 true)
    as [[s1 p1]|] eqn:H1; [|discriminate H1].
  assert (exists s2 p2,
            symp_run_effect (advance_ports 2 p1) s1 2 true = Some (s2, p2))
    as (s2 & p2 & H2).
  { injection H1 as <- <-. by eexists _, _. }
  exists s1, p1, s2, p2. split; [reflexivity|]. split; [exact H2|].
  exact (run_effect_split demo_ports p1 p2 demo_state s1 s2 2 2 true
           Hmax H1 H2).
Defined.
